(** * alpha_beta_v0_fun: dimensionless alpha-beta fit of fireball data

    A shallow embedding of the code cells of [alpha_beta_v0_fun.ipynb]
    (normalisation, two-pass smoothing, the Q4 objective of Gritsevich 2007,
    its two bounded minimisations, the manual residual and the final mass)
    and the properties of them that the design document states.

    Numbers.  The notebook computes on numpy [float64].  They are modelled
    as the extended reals [fl]: a finite value carries a real number and is
    computed with exactly (no rounding, no overflow threshold), and the
    three special values [+inf], [-inf] and [nan] follow IEEE 754, as
    numpy does with warnings silenced ([warnings.filterwarnings('ignore')]
    in the import cell).  Zero is unsigned and divides like [+0.0].

    Rounding.  Where a statement hangs on a rounding, the arithmetic of
    the code is given a second time on binary64 numbers (module [B64],
    over the kernel's floats, whose [+], [*] and [/] are those of
    IEEE 754), and the statement says which of the two it is about.

    Exceptions.  A Python expression that can raise returns a [result].

    Library calls.  [np.exp], [np.sin], [scipy.special.expi], [np.nansum]
    and [np.nanmean] are given their mathematical meaning on [fl];
    [scipy.optimize.minimize] is a parameter of the two estimators. *)

From Stdlib Require Import Reals Lra Lia List ZArith Bool Factorial Arith.
From Stdlib Require Floats.
Import ListNotations.

Set Warnings "-inexact-float".


(* ===================================================================== *)
(** * Python: exceptions, sequences                                        *)
(* ===================================================================== *)

Module Py.

Inductive exn : Type :=
| IndexError
| NameError
| ValueError.

Inductive result (A : Type) : Type :=
| Ok (a : A)
| Raise (e : exn).
Arguments Ok {A} a.
Arguments Raise {A} e.

Definition bind {A B : Type} (r : result A) (k : A -> result B) : result B :=
  match r with
  | Ok a => k a
  | Raise e => Raise e
  end.

Definition raises {A : Type} (r : result A) : Prop := exists e, r = Raise e.

(** [len(l)] *)
Definition len {A : Type} (l : list A) : Z := Z.of_nat (length l).

(** [l[i]] for a list or a one-dimensional array: a negative index counts
    from the end, an index outside [-len(l) .. len(l)-1] raises. *)
Definition getitem {A : Type} (l : list A) (i : Z) : result A :=
  let j := if (i <? 0)%Z then (i + len l)%Z else i in
  if ((j <? 0) || (len l <=? j))%Z then Raise IndexError
  else match nth_error l (Z.to_nat j) with
       | Some a => Ok a
       | None => Raise IndexError
       end.

(** [l[i] = a] *)
Fixpoint update {A : Type} (l : list A) (n : nat) (a : A) : list A :=
  match l, n with
  | [], _ => []
  | _ :: t, O => a :: t
  | h :: t, S n' => h :: update t n' a
  end.

Definition setitem {A : Type} (l : list A) (i : Z) (a : A) : result (list A) :=
  let j := if (i <? 0)%Z then (i + len l)%Z else i in
  if ((j <? 0) || (len l <=? j))%Z then Raise IndexError
  else Ok (update l (Z.to_nat j) a).

(** [range(lo, hi)] *)
Definition range (lo hi : Z) : list Z :=
  map (fun k => (lo + Z.of_nat k)%Z) (seq 0 (Z.to_nat (hi - lo))).

End Py.

Import Py.

Declare Scope py_scope.
Delimit Scope py_scope with py.
Notation "x <- c ;; k" := (bind c (fun x => k))
  (at level 61, c at next level, right associativity) : py_scope.
Notation "' p <- c ;; k" := (bind c (fun x => match x with p => k end))
  (at level 61, p pattern, c at next level, right associativity) : py_scope.
Open Scope py_scope.

(* ===================================================================== *)
(** * The exponential integral on the reals                                *)
(* ===================================================================== *)

(** [Ei x = gamma + ln |x| + sum_{k >= 1} x^k / (k * k!)] for [x <> 0], the
    principal value that [scipy.special.expi] tabulates.  The power series
    and Euler's constant are obtained as limits. *)

Module ExpIntegral.
Open Scope R_scope.

Definition Ein_coef (n : nat) : R := / (INR (S n) * INR (fact (S n))).

Lemma Ein_coef_pos n : 0 < Ein_coef n.
Proof.
  unfold Ein_coef. apply Rinv_0_lt_compat, Rmult_lt_0_compat.
  - apply lt_0_INR; lia.
  - apply INR_fact_lt_0.
Qed.

Lemma Ein_coef_neq n : Ein_coef n <> 0.
Proof. pose proof (Ein_coef_pos n); lra. Qed.

Lemma Ein_coef_ratio n :
  Ein_coef (S n) / Ein_coef n = INR (S n) / (INR (S (S n)) * INR (S (S n))).
Proof.
  unfold Ein_coef.
  replace (INR (fact (S (S n)))) with (INR (S (S n)) * INR (fact (S n)))
    by (rewrite <- mult_INR; reflexivity).
  pose proof (INR_fact_lt_0 (S n)).
  assert (0 < INR (S n)) by (apply lt_0_INR; lia).
  assert (0 < INR (S (S n))) by (apply lt_0_INR; lia).
  field. repeat split; lra.
Qed.

Lemma Ein_coef_ratio_cv :
  Un_cv (fun n => Rabs (Ein_coef (S n) / Ein_coef n)) 0.
Proof.
  intros eps Heps.
  destruct (archimed_cor1 eps Heps) as [N [HN HN0]].
  exists N. intros n Hn.
  unfold R_dist. rewrite Rminus_0_r, Rabs_Rabsolu, Ein_coef_ratio.
  assert (HSn : 0 < INR (S n)) by (apply lt_0_INR; lia).
  assert (HSSn : INR (S (S n)) = INR (S n) + 1)
    by (rewrite (S_INR (S n)); reflexivity).
  assert (HNpos : 0 < INR N) by (apply lt_0_INR; lia).
  assert (HNn : INR N <= INR (S n)) by (apply le_INR; lia).
  rewrite Rabs_pos_eq.
  2:{ apply Rlt_le, Rdiv_lt_0_compat; [lra|]. rewrite HSSn. nra. }
  apply Rle_lt_trans with (/ INR N); [|exact HN].
  rewrite HSSn.
  apply Rmult_le_reg_r with (INR N); [lra|].
  rewrite Rinv_l by lra.
  apply Rmult_le_reg_r with ((INR (S n) + 1) * (INR (S n) + 1)); [nra|].
  field_simplify; [|nra]. nra.
Qed.

(** [Ein x = sum_{k >= 1} x^k / (k * k!)] *)
Definition Ein (x : R) : R :=
  x * proj1_sig (Alembert_C3 Ein_coef x Ein_coef_neq Ein_coef_ratio_cv).

Fixpoint harmonic (n : nat) : R :=
  match n with
  | O => 0
  | S k => harmonic k + / INR (S k)
  end.

Definition gamma_seq (n : nat) : R := harmonic (S n) - ln (INR (S n)).

Lemma ln_le_minus_1 x : 0 < x -> ln x <= x - 1.
Proof.
  intros Hx. pose proof (exp_ineq1_le (ln x)) as H.
  rewrite exp_ln in H by assumption. lra.
Qed.

Lemma ln_quot x y : 0 < x -> 0 < y -> ln (x / y) = ln x - ln y.
Proof.
  intros Hx Hy. unfold Rdiv.
  rewrite ln_mult, ln_Rinv; auto using Rinv_0_lt_compat.
Qed.

Lemma gamma_seq_decreasing : Un_decreasing gamma_seq.
Proof.
  intros n. unfold gamma_seq.
  change (harmonic (S (S n))) with (harmonic (S n) + / INR (S (S n))).
  assert (H1 : 0 < INR (S n)) by (apply lt_0_INR; lia).
  assert (H2 : INR (S (S n)) = INR (S n) + 1)
    by (rewrite (S_INR (S n)); reflexivity).
  assert (H3 : 0 < INR (S (S n))) by lra.
  pose proof (ln_le_minus_1 _ (Rdiv_lt_0_compat _ _ H1 H3)) as H.
  rewrite ln_quot in H by assumption.
  revert H H1 H2 H3. generalize (INR (S (S n))) (INR (S n)).
  intros b a H H1 H2 H3.
  assert (a / b - 1 = - / b) by (subst b; field; lra).
  lra.
Qed.

Lemma harmonic_ge_ln n : ln (INR (S n)) <= harmonic n.
Proof.
  induction n as [|n IH].
  - simpl. rewrite ln_1. lra.
  - change (harmonic (S n)) with (harmonic n + / INR (S n)).
    assert (H1 : 0 < INR (S n)) by (apply lt_0_INR; lia).
    assert (H2 : INR (S (S n)) = INR (S n) + 1)
      by (rewrite (S_INR (S n)); reflexivity).
    assert (H3 : 0 < INR (S (S n))) by lra.
    pose proof (ln_le_minus_1 _ (Rdiv_lt_0_compat _ _ H3 H1)) as H.
    rewrite ln_quot in H by lra.
    revert IH H H1 H2 H3.
    generalize (INR (S (S n))) (INR (S n)) (harmonic n).
    intros b a h IH H H1 H2 H3.
    assert (b / a - 1 = / a) by (subst b; field; lra).
    lra.
Qed.

Lemma gamma_seq_nonneg n : 0 <= gamma_seq n.
Proof.
  unfold gamma_seq. pose proof (harmonic_ge_ln (S n)).
  assert (ln (INR (S n)) < ln (INR (S (S n)))).
  { apply ln_increasing; [apply lt_0_INR; lia | apply lt_INR; lia]. }
  lra.
Qed.

Lemma gamma_seq_lb : has_lb gamma_seq.
Proof.
  exists 0. intros y [n ->]. unfold opp_seq.
  pose proof (gamma_seq_nonneg n). lra.
Qed.

(** Euler's constant, [lim (1 + 1/2 + ... + 1/n - ln n)]. *)
Definition euler_gamma : R :=
  proj1_sig (decreasing_cv gamma_seq gamma_seq_decreasing gamma_seq_lb).

(** The constant lies where it should: [0 <= gamma <= 1]. *)
Lemma euler_gamma_bounds : 0 <= euler_gamma <= 1.
Proof.
  unfold euler_gamma.
  destruct (decreasing_cv gamma_seq gamma_seq_decreasing gamma_seq_lb)
    as [l Hl].
  cbn [proj1_sig]. split.
  - apply (@Rle_cv_lim (fun _ => 0) gamma_seq 0 l).
    + exact gamma_seq_nonneg.
    + intros eps Heps. exists 0%nat. intros n _.
      unfold R_dist. rewrite Rminus_diag, Rabs_R0. exact Heps.
    + exact Hl.
  - pose proof (decreasing_ineq gamma_seq l gamma_seq_decreasing Hl 0%nat) as H.
    unfold gamma_seq in H. cbn [harmonic] in H.
    change (INR 1) with 1 in H. rewrite ln_1 in H. lra.
Qed.

Definition Ei (x : R) : R := euler_gamma + ln (Rabs x) + Ein x.

End ExpIntegral.

(* ===================================================================== *)
(** * numpy float64                                                        *)
(* ===================================================================== *)

Module F64.
Open Scope R_scope.

Inductive fl : Type :=
| Fin (r : R)
| PInf
| NInf
| NaN.

Definition isnan (x : fl) : bool :=
  match x with NaN => true | _ => false end.

Definition isfinite (x : fl) : bool :=
  match x with Fin _ => true | _ => false end.

Definition Rltb (a b : R) : bool := if Rlt_dec a b then true else false.
Definition Rleb (a b : R) : bool := if Rle_dec a b then true else false.
Definition Reqb (a b : R) : bool := if Req_dec_T a b then true else false.

(** [-x] *)
Definition fneg (x : fl) : fl :=
  match x with
  | Fin r => Fin (- r)
  | PInf => NInf
  | NInf => PInf
  | NaN => NaN
  end.

(** [x + y] *)
Definition fadd (x y : fl) : fl :=
  match x, y with
  | NaN, _ | _, NaN => NaN
  | Fin a, Fin b => Fin (a + b)
  | PInf, NInf | NInf, PInf => NaN
  | PInf, _ | _, PInf => PInf
  | NInf, _ | _, NInf => NInf
  end.

(** [x - y] *)
Definition fsub (x y : fl) : fl := fadd x (fneg y).

(** [inf * r] for a finite [r]; [neg] flips the sign of the infinity. *)
Definition inf_times (neg : bool) (r : R) : fl :=
  if Rltb 0 r then (if neg then NInf else PInf)
  else if Rltb r 0 then (if neg then PInf else NInf)
  else NaN.

(** [x * y] *)
Definition fmul (x y : fl) : fl :=
  match x, y with
  | NaN, _ | _, NaN => NaN
  | Fin a, Fin b => Fin (a * b)
  | Fin a, PInf | PInf, Fin a => inf_times false a
  | Fin a, NInf | NInf, Fin a => inf_times true a
  | PInf, PInf | NInf, NInf => PInf
  | PInf, NInf | NInf, PInf => NInf
  end.

(** [x / y]; a zero divisor gives an infinity or [nan], never an exception. *)
Definition fdiv (x y : fl) : fl :=
  match x, y with
  | NaN, _ | _, NaN => NaN
  | Fin a, Fin b =>
      if Reqb b 0 then
        (if Rltb 0 a then PInf else if Rltb a 0 then NInf else NaN)
      else Fin (a / b)
  | Fin _, PInf | Fin _, NInf => Fin 0
  | PInf, Fin b => if Rltb b 0 then NInf else PInf
  | NInf, Fin b => if Rltb b 0 then PInf else NInf
  | _, _ => NaN
  end.

(** [x ** 2] and [pow(x, 2)] *)
Definition fsq (x : fl) : fl := fmul x x.

(** [pow(x, 3.0)] *)
Definition fcube (x : fl) : fl := fmul x (fmul x x).

(** [x ** p] for a finite exponent [p > 0] that is not an integer.  On a
    negative base CPython answers with a complex number, which [fl] does
    not have: the model gives [nan] there, as numpy does. *)
Definition fpow (x : fl) (p : R) : fl :=
  match x with
  | Fin r => if Rltb 0 r then Fin (Rpower r p)
             else if Reqb r 0 then Fin 0 else NaN
  | PInf | NInf => PInf
  | NaN => NaN
  end.

(** [x < y] and [x <= y]: false as soon as one side is [nan]. *)
Definition flt (x y : fl) : bool :=
  match x, y with
  | NaN, _ | _, NaN => false
  | Fin a, Fin b => Rltb a b
  | _, NInf => false
  | NInf, _ => true
  | PInf, _ => false
  | _, PInf => true
  end.

Definition fle (x y : fl) : bool :=
  match x, y with
  | NaN, _ | _, NaN => false
  | Fin a, Fin b => Rleb a b
  | NInf, _ => true
  | _, PInf => true
  | _, NInf => false
  | PInf, _ => false
  end.

(** [x > y] *)
Definition fgt (x y : fl) : bool := flt y x.

(** [np.exp] *)
Definition fexp (x : fl) : fl :=
  match x with
  | Fin r => Fin (exp r)
  | PInf => PInf
  | NInf => Fin 0
  | NaN => NaN
  end.

(** [np.sin] *)
Definition fsin (x : fl) : fl :=
  match x with
  | Fin r => Fin (sin r)
  | _ => NaN
  end.

(** [scipy.special.expi]: [-inf] at zero, real on both sides of it, and
    exact: scipy's overflows to [+inf] from an argument of about 710 on,
    as [np.exp] does. *)
Definition fexpi (x : fl) : fl :=
  match x with
  | Fin r => if Reqb r 0 then NInf else Fin (ExpIntegral.Ei r)
  | PInf => PInf
  | NInf => Fin 0
  | NaN => NaN
  end.

(** [np.sum] of a one-dimensional array *)
Definition fsum (l : list fl) : fl := fold_left fadd l (Fin 0).

Definition nan_to_zero (x : fl) : fl := if isnan x then Fin 0 else x.

(** [np.nansum]: every [nan] is replaced by zero, then [np.sum]. *)
Definition nansum (l : list fl) : fl := fsum (map nan_to_zero l).

Definition notnan (x : fl) : bool := negb (isnan x).

(** [np.nanmean]: the [nansum] over the number of entries that are not
    [nan]; an empty or all-[nan] slice gives [0/0 = nan]. *)
Definition nanmean (l : list fl) : fl :=
  fdiv (nansum l) (Fin (INR (length (filter notnan l)))).

End F64.

Import F64.

(* ===================================================================== *)
(** * The notebook                                                         *)
(* ===================================================================== *)

Module Notebook.
Open Scope R_scope.

(** ** Function definitions (cells 2 and 3) *)

(** The summand of [min_fun] and [min_fun_v]:
    [pow(2 * x[0] * np.exp(-yvals[i])
         - (expi(x[1]) - expi(x[1] * vval**2)) * np.exp(-x[1]), 2)]. *)
Definition q4_term (x0 x1 vval y : fl) : fl :=
  fsq (fsub (fmul (fmul (Fin 2) x0) (fexp (fneg y)))
            (fmul (fsub (fexpi x1) (fexpi (fmul x1 (fsq vval))))
                  (fexp (fneg x1)))).

(** The body of the two [for i in range(len(...))] loops; [vval_at i] is
    the first statement of the body, [res] the list appended to. *)
Fixpoint q4_loop (vval_at : Z -> result fl) (x yvals : list fl)
    (idx : list Z) (res : list fl) : result (list fl) :=
  match idx with
  | [] => Ok res
  | i :: rest =>
      vval <- vval_at i ;;
      x0 <- getitem x 0 ;;
      y <- getitem yvals i ;;
      x1 <- getitem x 1 ;;
      q4_loop vval_at x yvals rest (res ++ [q4_term x0 x1 vval y])
  end.

(** [min_fun(x, vvals, yvals, err)]; [err] is never read. *)
Definition min_fun (x vvals yvals err : list fl) : result fl :=
  res <- q4_loop (fun i => getitem vvals i) x yvals (range 0 (len vvals)) [] ;;
  Ok (nansum res).

(** [vval = velocities[i] / (x[2]*1000.)] *)
Definition vval_v (x velocities : list fl) (i : Z) : result fl :=
  v <- getitem velocities i ;;
  x2 <- getitem x 2 ;;
  Ok (fdiv v (fmul x2 (Fin 1000))).

(** [min_fun_v(x, velocities, yvals, err)] *)
Definition min_fun_v (x velocities yvals err : list fl) : result fl :=
  res <- q4_loop (vval_v x velocities) x yvals (range 0 (len velocities)) [] ;;
  Ok (nansum res).

(** What [scipy.optimize.minimize] hands back: [res.x] and [res.fun]. *)
Record OptimizeResult : Type := {
  res_x : list fl;
  res_fun : fl
}.

(** [minimize(fun, x0, args=..., bounds=bnds)], with [args] already
    applied to [fun]. *)
Definition minimizer : Type :=
  (list fl -> result fl) -> list fl -> list (fl * fl) -> result OptimizeResult.

(** A module-level name that no cell has assigned yet is [None]. *)
Definition global {A : Type} (g : option A) : result A :=
  match g with
  | Some a => Ok a
  | None => Raise NameError
  end.

Section Estimators.

Variable minimize : minimizer.

(** [x0] of [Q4_min]; [Yvalues] is the module-level array, not [yvals]. *)
Definition Q4_min_x0 (Yvalues : option (list fl)) : result (list fl) :=
  let b0 := Fin 1 in
  Y <- global Yvalues ;;
  ylast <- getitem Y (-1) ;;
  let a0 := fdiv (fexp ylast) (fmul (Fin 2) b0) in
  Ok [a0; b0].

Definition Q4_min_xmin : list fl := [Fin 0.01; Fin 0.0001].
Definition Q4_min_xmax : list fl := [Fin 1000; Fin 20].

(** [bnds = ((xmin[0], xmax[0]), (xmin[1], xmax[1]))] *)
Definition Q4_min_bnds : list (fl * fl) := combine Q4_min_xmin Q4_min_xmax.

(** [Q4_min(vvals, yvals, err=[])], run with module-level [Yvalues]. *)
Definition Q4_min (Yvalues : option (list fl)) (vvals yvals err : list fl)
  : result (list fl) :=
  x0 <- Q4_min_x0 Yvalues ;;
  res <- minimize (fun x => min_fun x vvals yvals err) x0 Q4_min_bnds ;;
  Ok (res_x res).

Definition Q4_min_v_xmin (V0 : fl) : list fl :=
  [Fin 0.01; Fin 0.0001; fdiv (fmul V0 (Fin 0.95)) (Fin 1000)].
Definition Q4_min_v_xmax (V0 : fl) : list fl :=
  [Fin 1000; Fin 20; fdiv (fmul V0 (Fin 1.05)) (Fin 1000)].
Definition Q4_min_v_bnds (V0 : fl) : list (fl * fl) :=
  combine (Q4_min_v_xmin V0) (Q4_min_v_xmax V0).

(** [x0] of [Q4_min_v], from the local [Yvalues]. *)
Definition Q4_min_v_x0 (Yvalues : list fl) (V0 : fl) : result (list fl) :=
  let b0 := Fin 0.01 in
  ylast <- getitem Yvalues (-1) ;;
  let a0 := fdiv (fexp ylast) (fmul (Fin 2) b0) in
  Ok [a0; b0; fdiv V0 (Fin 1000)].

(** [Q4_min_v(velocities, heights, h0, V0, err=[])] *)
Definition Q4_min_v (velocities heights : list fl) (h0 V0 : fl)
    (err : list fl) : result (list fl) :=
  let Yvalues := map (fun j => fdiv j h0) heights in
  x0 <- Q4_min_v_x0 Yvalues V0 ;;
  res <- minimize (fun x => min_fun_v x velocities Yvalues err) x0
           (Q4_min_v_bnds V0) ;;
  let out := res_x res in
  out2 <- getitem out 2 ;;
  setitem out 2 (fmul out2 (Fin 1000)).

End Estimators.

(** ** Section 1.1: normalising data *)

(** A row of [data]: [(data[vel_col][v], data[h_col][v])]. *)
Definition row : Type := (fl * fl)%type.

(** The loop [for v in range(len(data[vel_col]))] that fills [vel] and
    [alt]. *)
Fixpoint select_rows (data : list row) (vel alt : list fl)
  : list fl * list fl :=
  match data with
  | [] => (vel, alt)
  | (v, h) :: rest =>
      if fgt v (Fin 1) then select_rows rest (vel ++ [v]) (alt ++ [h])
      else select_rows rest vel alt
  end.

(** [if v0 == []: v0 = np.nanmean(vel[0:10])]; [None] is the [v0 = []]
    of the upload cell. *)
Definition approx_v0 (v0 : option fl) (vel : list fl) : fl :=
  match v0 with
  | None => nanmean (firstn 10 vel)
  | Some v => v
  end.

(** The names the cell has assigned when it stops. *)
Record normalised : Type := {
  vel : list fl;
  alt : list fl;
  v0 : fl;
  Vvalues : list fl;
  h0 : option fl;
  Yvalues : option (list fl)
}.

(** The cell of Section 1.1: the names it leaves behind and the exception
    it stops on, if any. *)
Definition section_1_1 (data : list row) (v0_in : option fl)
  : normalised * option exn :=
  let '(vel, alt) := select_rows data [] [] in
  let v0 := approx_v0 v0_in vel in
  let Vvalues := map (fun v => fdiv v v0) vel in
  match getitem alt 0 with
  | Raise e =>
      ({| vel := vel; alt := alt; v0 := v0; Vvalues := Vvalues;
          h0 := None; Yvalues := None |}, Some e)
  | Ok alt0 =>
      let h0 := if flt alt0 (Fin 1000) then Fin 7.160 else Fin 7160 in
      ({| vel := vel; alt := alt; v0 := v0; Vvalues := Vvalues;
          h0 := Some h0; Yvalues := Some (map (fun a => fdiv a h0) alt) |},
       None)
  end.

(** ** Section 2.1: smoothing data *)

(** One [for v in range(1, len(vel)-1)] loop. *)
Fixpoint smooth_loop (vel alt : list fl) (idx : list Z)
    (vel1 alt1 : list fl) : result (list fl * list fl) :=
  match idx with
  | [] => Ok (vel1, alt1)
  | v :: rest =>
      a <- getitem vel (v - 1) ;;
      b <- getitem vel v ;;
      c <- getitem vel (v + 1) ;;
      h <- getitem alt v ;;
      smooth_loop vel alt rest
        (vel1 ++ [fdiv (fadd (fadd a b) c) (Fin 3)]) (alt1 ++ [h])
  end.

Definition smooth_pass (vel alt : list fl) : result (list fl * list fl) :=
  smooth_loop vel alt (range 1 (len vel - 1)) [] [].

(** The cell of Section 2.1: [(vel_smooth, alt_smooth, v0)]. *)
Definition section_2_1 (vel alt : list fl) (v0_in : option fl)
  : result (list fl * list fl * fl) :=
  '(vel1, alt1) <- smooth_pass vel alt ;;
  '(vel_smooth, alt_smooth) <- smooth_pass vel1 alt1 ;;
  Ok (vel_smooth, alt_smooth, approx_v0 v0_in vel).

(** ** Final mass (the [m_txt] of the mass cells) *)

(** [pow(0.5 * cd * 1.29 * 7160. * A
         / (alpha_1 * np.sin(slope) * rho**(2/3.0)), 3.0)
     * np.exp(-beta_1/(1-mu)) * (1 - Vvalues[-1]**2)];
    [slope] is in radians. *)
Definition m_txt (alpha_1 beta_1 : fl) (Vvalues : list fl)
    (slope mu cd rho A : fl) : result fl :=
  vlast <- getitem Vvalues (-1) ;;
  Ok (fmul
        (fmul
           (fcube
              (fdiv
                 (fmul (fmul (fmul (fmul (Fin 0.5) cd) (Fin 1.29)) (Fin 7160)) A)
                 (fmul (fmul alpha_1 (fsin slope)) (fpow rho (2 / 3)))))
           (fexp (fdiv (fneg beta_1) (fsub (Fin 1) mu))))
        (fsub (Fin 1) (fsq vlast))).

(** ** Section 3.1: the residual of the manual fit *)

(** [res] of [f(V0, alpha, beta)]:
    [min_fun_v([alpha, beta, V0/1000.], vel, yvalues, [])] with
    [yvalues = [j / h0 for j in alt]]. *)
Definition f_3_1 (h0 : fl) (alt vel : list fl) (V0 alpha beta : fl)
  : result fl :=
  let yvalues := map (fun j => fdiv j h0) alt in
  min_fun_v [alpha; beta; fdiv V0 (Fin 1000)] vel yvalues [].

End Notebook.

Import Notebook.

(* ===================================================================== *)
(** * The notebook, continued: fits, curves and the mass boundary          *)
(* ===================================================================== *)

Module Plots.
Open Scope R_scope.

(** [np.log]: [-inf] at zero, [nan] below it. *)
Definition flog (x : fl) : fl :=
  match x with
  | Fin r => if Rltb 0 r then Fin (ln r)
             else if Reqb r 0 then NInf else NaN
  | PInf => PInf
  | NInf => NaN
  | NaN => NaN
  end.

(** ** Section 1.2: calculate alpha and beta *)

(** What the cell assigns and prints: [alpha_1], [beta_1], and the three
    logarithms [np.log(alpha_1)], [np.log(beta_1)] and
    [np.log(alpha_1 * np.sin(slope))]. *)
Record fit_1 : Type := {
  alpha_1 : fl;
  beta_1 : fl;
  log_alpha : fl;
  log_beta : fl;
  log_alpha_sin_slope : fl
}.

(** [Gparams = Q4_min(Vvalues, Yvalues)] and what follows it; the two
    arguments are the module-level arrays, and so is the [Yvalues] that
    [Q4_min] reads. *)
Definition section_1_2 (minimize : minimizer) (Vvalues Yvalues : list fl)
    (slope : fl) : result fit_1 :=
  Gparams <- Q4_min minimize (Some Yvalues) Vvalues Yvalues [] ;;
  alpha_1 <- getitem Gparams 0 ;;
  beta_1 <- getitem Gparams 1 ;;
  Ok {| alpha_1 := alpha_1; beta_1 := beta_1;
        log_alpha := flog alpha_1;
        log_beta := flog beta_1;
        log_alpha_sin_slope := flog (fmul alpha_1 (fsin slope)) |}.

(** ** Sections 1.3, 2.3 and 3.1: the fitted curve *)

(** [fun = lambda x: np.log(alpha_1) + beta_1
                    - np.log((expi(beta_1) - expi(beta_1 * x**2)) / 2)] *)
Definition fun_curve (alpha beta x : fl) : fl :=
  fsub (fadd (flog alpha) beta)
       (flog (fdiv (fsub (fexpi beta) (fexpi (fmul beta (fsq x)))) (Fin 2))).

(** ** Section 2.2: calculate alpha, beta and V0 *)

Record fit_2 : Type := {
  alpha_2 : fl;
  beta_2 : fl;
  v0_calc : fl;
  Yvalues_2 : list fl;
  Vvalues_2 : list fl
}.

(** [Gparams = Q4_min_v(vel_smooth, alt_smooth, h0, v0)], then
    [Yvalues_2 = [j / h0 for j in alt]] and
    [Vvalues_2 = [j / v0_calc for j in vel]]. *)
Definition section_2_2 (minimize : minimizer)
    (vel_smooth alt_smooth : list fl) (h0 v0 : fl) (alt vel : list fl)
  : result fit_2 :=
  Gparams <- Q4_min_v minimize vel_smooth alt_smooth h0 v0 [] ;;
  alpha_2 <- getitem Gparams 0 ;;
  beta_2 <- getitem Gparams 1 ;;
  v0_calc <- getitem Gparams 2 ;;
  Ok {| alpha_2 := alpha_2; beta_2 := beta_2; v0_calc := v0_calc;
        Yvalues_2 := map (fun j => fdiv j h0) alt;
        Vvalues_2 := map (fun j => fdiv j v0_calc) vel |}.

(** Sections 2.1 and 2.2 in a row, on the arrays and the [h0] and [v0]
    that Section 1.1 left. *)
Definition sections_2_1_2_2 (minimize : minimizer) (vel alt : list fl)
    (h0 v0 : fl) : result fit_2 :=
  '(vel_smooth, alt_smooth, v0') <- section_2_1 vel alt (Some v0) ;;
  section_2_2 minimize vel_smooth alt_smooth h0 v0' alt vel.

(** ** The mass cells: the boundary of the final mass *)

(** What CPython's own float division raises; numpy's does not. *)
Inductive float_exn : Type :=
| ZeroDivisionError.

(** [x / y] on two Python floats: a zero divisor raises. *)
Definition pydiv (x y : fl) : float_exn + fl :=
  match y with
  | Fin b => if Reqb b 0 then inl ZeroDivisionError else inr (fdiv x y)
  | _ => inr (fdiv x y)
  end.

(** [m0 = (0.5 * cd * 1.29 * 7160. * A / pow(rho, 2/3))**3.], all of it
    on Python floats.  The cube is exact here: the [OverflowError] that
    [**3.] raises when the result leaves binary64, and its underflow to
    zero, are outside the model. *)
Definition m0 (cd rho A : fl) : float_exn + fl :=
  match pydiv (fmul (fmul (fmul (fmul (Fin 0.5) cd) (Fin 1.29)) (Fin 7160)) A)
              (fpow rho (2 / 3)) with
  | inl e => inl e
  | inr q => inr (fcube q)
  end.

(** [y = [np.log((mu - 1) * (np.log(mf/m0) + 3 * i)) for i in x]];
    [mf/m0] divides two Python floats, anew for every [i]. *)
Fixpoint boundary (mu mf m0 : fl) (x : list fl) : float_exn + list fl :=
  match x with
  | [] => inr []
  | i :: rest =>
      match pydiv mf m0 with
      | inl e => inl e
      | inr q =>
          let y := flog (fmul (fsub mu (Fin 1))
                              (fadd (flog q) (fmul (Fin 3) i))) in
          match boundary mu mf m0 rest with
          | inl e => inl e
          | inr ys => inr (y :: ys)
          end
      end
  end.

(** The black curve of [f(mf, mu, cd, rho, A)]: [mf = mf/1000.], [m0],
    then [y] over the grid [x]. *)
Definition f_boundary (mf mu cd rho A : fl) (x : list fl)
  : float_exn + list fl :=
  let mf := fdiv mf (Fin 1000) in
  match m0 cd rho A with
  | inl e => inl e
  | inr m => boundary mu mf m x
  end.

(** The red point of the same plot:
    [(np.log(alpha_1 * np.sin(slope)), np.log(beta_1))]. *)
Definition f_point (alpha_1 beta_1 slope : fl) : fl * fl :=
  (flog (fmul alpha_1 (fsin slope)), flog beta_1).

End Plots.

Import Plots.

(* ===================================================================== *)
(** * The arithmetic of the code on binary64                               *)
(* ===================================================================== *)

(** The expressions of the notebook in which a rounding can be seen,
    operation for operation, on binary64 numbers.  A decimal constant
    stands for the nearest binary64 number, as it does in Python. *)

Module B64.
Import PrimFloat.
Local Open Scope float_scope.

(** [V0/1000]: the third entry of [x0] in [Q4_min_v], and the [V0/1000.]
    that [f] of Section 3.1 hands to [min_fun_v]. *)
Definition V0_guess (V0 : float) : float := V0 / 1000.

(** [xmin[2] = V0 * 0.95/1000] and [xmax[2] = V0 * 1.05/1000] of
    [Q4_min_v]. *)
Definition xmin_2 (V0 : float) : float := V0 * 0.95 / 1000.
Definition xmax_2 (V0 : float) : float := V0 * 1.05 / 1000.

(** [out[2] *= 1000.] *)
Definition rescale (x : float) : float := x * 1000.

(** [vval = velocities[i] / (x[2]*1000.)] of [min_fun_v]. *)
Definition vval_v (v x2 : float) : float := v / (x2 * 1000).

(** One entry of [Vvalues = vel/v0]. *)
Definition normalise (v v0 : float) : float := v / v0.

(** [(vel[v-1]+vel[v]+vel[v+1]) / 3] of Section 2.1. *)
Definition mean3 (a b c : float) : float := (a + b + c) / 3.

(** The number that a finite [x] is, exactly: [m * 2^e]. *)
Definition exact (x : float) : option (Z * Z) :=
  match FloatOps.Prim2SF x with
  | SpecFloat.S754_zero _ => Some (0, 0)%Z
  | SpecFloat.S754_finite s m e => Some (if s then Z.neg m else Z.pos m, e)
  | _ => None
  end.

(** How a finite [x] compares with the fraction [n / d], for [d > 0],
    without any rounding. *)
Definition compare_with (x : float) (n d : Z) : option comparison :=
  match exact x with
  | Some (m, e) =>
      Some (if (0 <=? e)%Z then (m * 2 ^ e * d ?= n)%Z
            else (m * d ?= n * 2 ^ (- e))%Z)
  | None => None
  end.

End B64.

(* ===================================================================== *)
(** * The vocabulary of the statements                                     *)
(* ===================================================================== *)

(** The terms of the objective at [(x0, x1)] over the paired arrays. *)
Definition q4_terms (x0 x1 : fl) (vvals yvals : list fl) : list fl :=
  map (fun vy => q4_term x0 x1 (fst vy) (snd vy)) (combine vvals yvals).

(** The test of the selection loop: [data[vel_col][v] > 1.]. *)
Definition kept (r : row) : bool := fgt (fst r) (Fin 1).

(** [(a + b + c) / 3] *)
Definition mean3 (a b c : fl) : fl := fdiv (fadd (fadd a b) c) (Fin 3).

(** The moving average of three neighbours, one entry for every index
    that has both neighbours. *)
Definition smoothed (l : list fl) : list fl :=
  map (fun i => mean3 (nth i l NaN) (nth (i + 1) l NaN) (nth (i + 2) l NaN))
      (seq 0 (length l - 2)).

(** The [n - 2] entries of [l] from index 1 on. *)
Definition middle (n : nat) (l : list fl) : list fl :=
  map (fun i => nth (i + 1) l NaN) (seq 0 (n - 2)).

(** [lo <= x <= hi] for a pair [(lo, hi)] of [bounds]. *)
Definition within (x : fl) (b : fl * fl) : Prop :=
  fle (fst b) x = true /\ fle x (snd b) = true.

(** With [bounds], the point returned lies in the box, whenever the start
    holds no [nan]. *)
Definition respects_bounds (minimize : minimizer) : Prop :=
  forall f x0 bnds res,
    Forall (fun x => isnan x = false) x0 ->
    minimize f x0 bnds = Ok res ->
    Forall2 within (res_x res) bnds.

(** [res.fun] is the objective at [res.x]. *)
Definition reports_objective (minimize : minimizer) : Prop :=
  forall f x0 bnds res,
    minimize f x0 bnds = Ok res -> f (res_x res) = Ok (res_fun res).

(** [np.clip(x, lo, hi)] *)
Definition clip (x : fl) (b : fl * fl) : fl :=
  if flt x (fst b) then fst b
  else if flt (snd b) x then snd b
  else x.

(** A bounded minimiser at its simplest, to have one at hand: it projects
    the start onto the box, as L-BFGS-B does before its first step, and
    stops there.  Like scipy it raises [ValueError] when the bounds do
    not match the start in number or have a lower bound above the upper
    one. *)
Definition project_only : minimizer :=
  fun f x0 bnds =>
    if (length x0 =? length bnds)%nat
       && forallb (fun b => fle (fst b) (snd b)) bnds
    then
      let x := map (fun xb => clip (fst xb) (snd xb)) (combine x0 bnds) in
      v <- f x ;;
      Ok {| res_x := x; res_fun := v |}
    else Raise ValueError.

(* ===================================================================== *)
(** * Sequences: indexing inside the bounds, loops over a range           *)
(* ===================================================================== *)

Section Sequences.

Context {A : Type}.

Lemma getitem_nth_error (l : list A) (k : nat) (a : A) :
  nth_error l k = Some a -> getitem l (Z.of_nat k) = Ok a.
Proof.
  intros H. unfold getitem, len.
  assert (Hk : (k < length l)%nat) by (apply nth_error_Some; congruence).
  assert (E1 : (Z.of_nat k <? 0)%Z = false) by (apply Z.ltb_ge; lia).
  assert (E2 : (Z.of_nat (length l) <=? Z.of_nat k)%Z = false)
    by (apply Z.leb_gt; lia).
  rewrite E1. cbv zeta. rewrite E1, E2. simpl.
  rewrite Nat2Z.id, H. reflexivity.
Qed.

Lemma getitem_out_of_range (l : list A) (k : nat) :
  (length l <= k)%nat -> getitem l (Z.of_nat k) = Raise IndexError.
Proof.
  intros H. unfold getitem, len.
  assert (E1 : (Z.of_nat k <? 0)%Z = false) by (apply Z.ltb_ge; lia).
  assert (E2 : (Z.of_nat (length l) <=? Z.of_nat k)%Z = true)
    by (apply Z.leb_le; lia).
  rewrite E1. cbv zeta. rewrite E1, E2. reflexivity.
Qed.

(** [l[-1]] is the last element. *)
Lemma getitem_last (l : list A) (a : A) :
  getitem (l ++ [a]) (-1) = Ok a.
Proof.
  unfold getitem, len. rewrite length_app.
  change (length [a]) with 1%nat.
  change (-1 <? 0)%Z with true. cbv iota zeta.
  replace (-1 + Z.of_nat (length l + 1))%Z
    with (Z.of_nat (length l)) by lia.
  assert (E1 : (Z.of_nat (length l) <? 0)%Z = false) by (apply Z.ltb_ge; lia).
  assert (E2 : (Z.of_nat (length l + 1) <=? Z.of_nat (length l))%Z
               = false) by (apply Z.leb_gt; lia).
  rewrite E1, E2. simpl.
  rewrite Nat2Z.id, nth_error_app2, Nat.sub_diag by lia. reflexivity.
Qed.

Lemma getitem_last_empty : getitem (@nil A) (-1) = Raise IndexError.
Proof. reflexivity. Qed.

Lemma getitem_last_inv (l : list A) (a : A) :
  getitem l (-1) = Ok a -> exists l', l = l' ++ [a].
Proof.
  destruct l as [|h t] using rev_ind; [discriminate|].
  rewrite getitem_last. intros [= ->]. eauto.
Qed.

Lemma range_from_zero (n : nat) :
  range 0 (Z.of_nat n) = map Z.of_nat (seq 0 n).
Proof.
  unfold range. rewrite Z.sub_0_r, Nat2Z.id.
  apply map_ext. intros k. lia.
Qed.

End Sequences.

(* ===================================================================== *)
(** * Arithmetic of [fl]                                                   *)
(* ===================================================================== *)

Open Scope R_scope.

Lemma Rltb_true a b : a < b -> Rltb a b = true.
Proof. intros H. unfold Rltb. destruct (Rlt_dec a b); [reflexivity | contradiction]. Qed.

Lemma Rltb_false a b : ~ a < b -> Rltb a b = false.
Proof. intros H. unfold Rltb. destruct (Rlt_dec a b); [contradiction | reflexivity]. Qed.

Lemma Rleb_true a b : a <= b -> Rleb a b = true.
Proof. intros H. unfold Rleb. destruct (Rle_dec a b); [reflexivity | contradiction]. Qed.

Lemma Rleb_false a b : ~ a <= b -> Rleb a b = false.
Proof. intros H. unfold Rleb. destruct (Rle_dec a b); [contradiction | reflexivity]. Qed.

Lemma Reqb_true a b : a = b -> Reqb a b = true.
Proof. intros H. unfold Reqb. destruct (Req_dec_T a b); [reflexivity | contradiction]. Qed.

Lemma Reqb_false a b : a <> b -> Reqb a b = false.
Proof. intros H. unfold Reqb. destruct (Req_dec_T a b); [contradiction | reflexivity]. Qed.

Lemma Rltb_spec a b : reflect (a < b) (Rltb a b).
Proof. unfold Rltb. destruct (Rlt_dec a b); constructor; assumption. Qed.

Lemma Rleb_spec a b : reflect (a <= b) (Rleb a b).
Proof. unfold Rleb. destruct (Rle_dec a b); constructor; assumption. Qed.

Lemma Reqb_spec a b : reflect (a = b) (Reqb a b).
Proof. unfold Reqb. destruct (Req_dec_T a b); constructor; assumption. Qed.

(** Decide the comparisons of real constants that an evaluation meets. *)
Ltac rdec :=
  repeat match goal with
    | |- context [Rltb ?a ?b] =>
        first [ rewrite (Rltb_true a b) by lra
              | rewrite (Rltb_false a b) by lra ]
    | |- context [Rleb ?a ?b] =>
        first [ rewrite (Rleb_true a b) by lra
              | rewrite (Rleb_false a b) by lra ]
    | |- context [Reqb ?a ?b] =>
        first [ rewrite (Reqb_true a b) by lra
              | rewrite (Reqb_false a b) by lra ]
    end.

(** Record that every exponential in the goal is positive. *)
Ltac note_exp :=
  repeat match goal with
    | |- context [exp ?t] =>
        lazymatch goal with
        | _ : 0 < exp t |- _ => fail
        | _ => pose proof (exp_pos t)
        end
    end.

Ltac fl_eval := repeat (progress (simpl; unfold inf_times; note_exp; rdec)).

Lemma fadd_0_r x : fadd x (Fin 0) = x.
Proof. destruct x; simpl; try reflexivity. f_equal. lra. Qed.

Lemma fmul_fin a b : fmul (Fin a) (Fin b) = Fin (a * b).
Proof. reflexivity. Qed.

Lemma fadd_fin a b : fadd (Fin a) (Fin b) = Fin (a + b).
Proof. reflexivity. Qed.

Lemma fdiv_fin a b : b <> 0 -> fdiv (Fin a) (Fin b) = Fin (a / b).
Proof. intros H. simpl. rewrite Reqb_false by assumption. reflexivity. Qed.

(** In exact arithmetic [(x / 1000) * 1000] is [x] again; binary64
    rounds the quotient and the product. *)
Lemma fdiv_fmul_1000 x : fmul (fdiv x (Fin 1000)) (Fin 1000) = x.
Proof. destruct x; fl_eval; try reflexivity. f_equal. lra. Qed.

Lemma fsum_from (l : list fl) (acc : fl) :
  fold_left fadd (map nan_to_zero l) acc
  = fold_left fadd (filter notnan l) acc.
Proof.
  revert acc. induction l as [|x l IH]; intros acc; simpl; [reflexivity|].
  destruct x; simpl; try apply IH.
  rewrite fadd_0_r. apply IH.
Qed.

(** [np.nansum] adds up the entries that are not [nan]. *)
Lemma nansum_filter (l : list fl) : nansum l = fsum (filter notnan l).
Proof. apply fsum_from. Qed.

(** Without a [nan] in the list, [np.nansum] is [np.sum]. *)
Lemma nansum_no_nan (l : list fl) :
  Forall (fun x => isnan x = false) l -> nansum l = fsum l.
Proof.
  intros H. rewrite nansum_filter. f_equal.
  induction H as [|x l Hx _ IH]; simpl; [reflexivity|].
  unfold notnan at 1. rewrite Hx. simpl. f_equal. exact IH.
Qed.

Lemma nansum_all_nan (l : list fl) :
  Forall (fun x => isnan x = true) l -> nansum l = Fin 0.
Proof.
  intros H. rewrite nansum_filter.
  replace (filter notnan l) with (@nil fl); [reflexivity|].
  induction H as [|x l Hx _ IH]; simpl; [reflexivity|].
  unfold notnan at 1. rewrite Hx. simpl. exact IH.
Qed.

(* ===================================================================== *)
(** * The objective: the loop is a sum over the paired arrays              *)
(* ===================================================================== *)

Lemma Forall2_range {B : Type} (P : Z -> B -> Prop) (l : list B) (s : nat) :
  (forall k b, nth_error l k = Some b -> P (Z.of_nat (s + k)) b) ->
  Forall2 P (map Z.of_nat (seq s (length l))) l.
Proof.
  revert s. induction l as [|b l IH]; intros s H; simpl; constructor.
  - specialize (H 0%nat b eq_refl). rewrite Nat.add_0_r in H. exact H.
  - apply IH. intros k b' Hk.
    replace (S s + k)%nat with (s + S k)%nat by lia. apply H. exact Hk.
Qed.

Lemma nth_error_combine {B C : Type} (l1 : list B) (l2 : list C) k b c :
  nth_error (combine l1 l2) k = Some (b, c) ->
  nth_error l1 k = Some b /\ nth_error l2 k = Some c.
Proof.
  revert l2 k. induction l1 as [|x l1 IH]; intros [|y l2] [|k] H;
    simpl in *; try discriminate.
  - injection H as -> ->. split; reflexivity.
  - apply IH. exact H.
Qed.

Lemma length_combine_le {B C : Type} (l1 : list B) (l2 : list C) :
  (length l1 <= length l2)%nat -> length (combine l1 l2) = length l1.
Proof. intros H. rewrite length_combine. lia. Qed.

Lemma q4_loop_ok vval_at a b xs yvals idx (vys : list (fl * fl)) res :
  Forall2 (fun i vy => vval_at i = Ok (fst vy) /\ getitem yvals i = Ok (snd vy))
          idx vys ->
  q4_loop vval_at (a :: b :: xs) yvals idx res
  = Ok (res ++ map (fun vy => q4_term a b (fst vy) (snd vy)) vys).
Proof.
  intros H. revert res.
  induction H as [|i vy idx vys [Hv Hy] _ IH]; intros res; simpl.
  - rewrite app_nil_r. reflexivity.
  - rewrite Hv. simpl. rewrite Hy. simpl.
    change (getitem (a :: b :: xs) 0) with (Ok a).
    change (getitem (a :: b :: xs) 1) with
      (if ((1 <? 0) || (len (a :: b :: xs) <=? 1))%Z
       then Raise IndexError else Ok b).
    assert (E : (len (a :: b :: xs) <=? 1)%Z = false)
      by (apply Z.leb_gt; unfold len; simpl length; lia).
    rewrite E. simpl. rewrite IH, <- app_assoc. reflexivity.
Qed.

(** [min_fun] on parallel arrays: the [nansum] of the terms. *)
Lemma min_fun_sum a b xs vvals yvals err :
  (length vvals <= length yvals)%nat ->
  min_fun (a :: b :: xs) vvals yvals err
  = Ok (nansum (q4_terms a b vvals yvals)).
Proof.
  intros Hlen. unfold min_fun, len.
  rewrite range_from_zero.
  rewrite <- (length_combine_le vvals yvals Hlen).
  rewrite (q4_loop_ok (fun i => getitem vvals i) a b xs yvals _
             (combine vvals yvals) []).
  - reflexivity.
  - apply Forall2_range. intros k [v y] Hk. simpl.
    apply nth_error_combine in Hk. destruct Hk as [Hv Hy].
    split; apply getitem_nth_error; assumption.
Qed.

(** [min_fun_v] on parallel arrays: the same sum, each velocity divided
    by [x[2] * 1000]. *)
Lemma min_fun_v_sum a b c xs velocities yvals err :
  (length velocities <= length yvals)%nat ->
  min_fun_v (a :: b :: c :: xs) velocities yvals err
  = Ok (nansum (q4_terms a b
                  (map (fun v => fdiv v (fmul c (Fin 1000))) velocities)
                  yvals)).
Proof.
  intros Hlen. unfold min_fun_v, len.
  rewrite range_from_zero.
  rewrite <- (length_combine_le velocities yvals Hlen).
  rewrite (q4_loop_ok (vval_v (a :: b :: c :: xs) velocities) a b (c :: xs)
             yvals _
             (map (fun vy => (fdiv (fst vy) (fmul c (Fin 1000)), snd vy))
                (combine velocities yvals)) []).
  - simpl. do 2 f_equal. unfold q4_terms.
    rewrite map_map. simpl.
    clear Hlen. revert yvals.
    induction velocities as [|v vs IH]; intros [|y ys]; simpl;
      try reflexivity.
    f_equal. apply IH.
  - rewrite <- (length_map
                  (fun vy => (fdiv (fst vy) (fmul c (Fin 1000)), snd vy))).
    apply Forall2_range. intros k [v y] Hk. simpl.
    rewrite nth_error_map in Hk.
    destruct (nth_error (combine velocities yvals) k) as [[v' y']|] eqn:E;
      [|discriminate].
    simpl in Hk. injection Hk as <- <-.
    apply nth_error_combine in E. destruct E as [Hv Hy].
    split; [|apply getitem_nth_error; assumption].
    unfold vval_v. rewrite (getitem_nth_error _ _ _ Hv). simpl.
    change (getitem (a :: b :: c :: xs) 2) with
      (if ((2 <? 0) || (len (a :: b :: c :: xs) <=? 2))%Z
       then Raise IndexError else Ok c).
    assert (E : (len (a :: b :: c :: xs) <=? 2)%Z = false)
      by (apply Z.leb_gt; unfold len; simpl length; lia).
    rewrite E. reflexivity.
Qed.

Lemma q4_loop_raise vval_at a b xs yvals idx (vys : list (fl * fl)) i v e
    rest res :
  Forall2 (fun i vy => vval_at i = Ok (fst vy) /\ getitem yvals i = Ok (snd vy))
          idx vys ->
  vval_at i = Ok v ->
  getitem yvals i = Raise e ->
  q4_loop vval_at (a :: b :: xs) yvals (idx ++ i :: rest) res = Raise e.
Proof.
  intros H Hv He. revert res.
  induction H as [|j vy idx vys [Hjv Hjy] _ IH]; intros res.
  - cbn [app q4_loop]. rewrite Hv. cbn [bind].
    change (getitem (a :: b :: xs) 0) with (Ok a). cbn [bind].
    rewrite He. reflexivity.
  - cbn [app q4_loop]. rewrite Hjv. cbn [bind].
    change (getitem (a :: b :: xs) 0) with (Ok a). cbn [bind].
    rewrite Hjy. cbn [bind].
    change (getitem (a :: b :: xs) 1) with
      (if ((1 <? 0) || (len (a :: b :: xs) <=? 1))%Z
       then Raise IndexError else Ok b).
    assert (E : (len (a :: b :: xs) <=? 1)%Z = false)
      by (apply Z.leb_gt; unfold len; simpl length; lia).
    rewrite E. cbn [orb Z.ltb Z.compare bind]. apply IH.
Qed.

(** With fewer heights than velocities, [yvals[i]] runs off the end. *)
Lemma min_fun_short_heights a b xs vvals yvals err :
  (length yvals < length vvals)%nat ->
  min_fun (a :: b :: xs) vvals yvals err = Raise IndexError.
Proof.
  intros Hlen. unfold min_fun, len. rewrite range_from_zero.
  set (m := length yvals).
  replace (length vvals) with (m + S (length vvals - S m))%nat by lia.
  rewrite seq_app, map_app. cbn [seq map Nat.add].
  destruct (nth_error vvals m) as [v|] eqn:Ev.
  2:{ apply nth_error_None in Ev. lia. }
  rewrite (q4_loop_raise (fun i => getitem vvals i) a b xs yvals _
             (combine (firstn m vvals) yvals) (Z.of_nat m) v IndexError).
  - reflexivity.
  - assert (L : length (combine (firstn m vvals) yvals) = m).
    { rewrite length_combine, length_firstn. subst m. lia. }
    rewrite <- L at 1. apply Forall2_range. intros k [v' y'] Hk.
    cbn [Nat.add fst snd].
    apply nth_error_combine in Hk. destruct Hk as [Hv Hy].
    split; apply getitem_nth_error; [|exact Hy].
    rewrite <- (firstn_skipn m vvals).
    rewrite nth_error_app1; [exact Hv|].
    apply nth_error_Some. congruence.
  - apply getitem_nth_error. exact Ev.
  - apply getitem_out_of_range. subst m. lia.
Qed.

(* ===================================================================== *)
(** * The objective functions [min_fun] and [min_fun_v]                    *)
(* ===================================================================== *)

(** A square is never [-inf]. *)
Lemma fsq_not_ninf (x : fl) : fsq x <> NInf.
Proof. destruct x; cbn; discriminate. Qed.

(** A sum of numbers none of which is [-inf] is a number, and not
    [-inf]. *)
Lemma fsum_of_numbers (l : list fl) (acc : fl) :
  Forall (fun t => isnan t = false /\ t <> NInf) l ->
  isnan acc = false -> acc <> NInf ->
  isnan (fold_left fadd l acc) = false /\ fold_left fadd l acc <> NInf.
Proof.
  intros H. revert acc.
  induction H as [|t l [Ht1 Ht2] _ IH]; intros acc Ha1 Ha2; cbn [fold_left].
  - split; assumption.
  - apply IH; destruct acc, t; cbn; try discriminate; try reflexivity;
      congruence.
Qed.

(** C1 (amended).  On a parameter vector [(alpha, beta, ...)] and parallel
    arrays of normalised velocities and heights (one height at least for
    every velocity), [min_fun] returns, without raising, the sum of the
    terms [(2*alpha*exp(-y_i) - (Ei(beta) - Ei(beta*v_i^2))*exp(-beta))^2]
    that are not [nan]: a [nan] term is left out of the sum, and the sum
    is never [nan].  Nothing is said here of an infinite term, which
    [np.nansum] keeps. *)
Theorem min_fun_sums_terms_that_are_not_nan
    (alpha beta : fl) (xs vvals yvals err : list fl) :
  (length vvals <= length yvals)%nat ->
  min_fun (alpha :: beta :: xs) vvals yvals err
  = Ok (fsum (filter notnan (q4_terms alpha beta vvals yvals)))
  /\ isnan (fsum (filter notnan (q4_terms alpha beta vvals yvals))) = false.
Proof.
  intros Hlen. split.
  - rewrite (min_fun_sum alpha beta xs vvals yvals err Hlen).
    rewrite nansum_filter. reflexivity.
  - apply fsum_of_numbers; [|reflexivity|discriminate].
    apply Forall_forall. intros t Ht. apply filter_In in Ht.
    destruct Ht as [Ht Hn]. split.
    + unfold notnan in Hn. destruct (isnan t); [discriminate | reflexivity].
    + unfold q4_terms in Ht. apply in_map_iff in Ht.
      destruct Ht as [vy [<- _]]. apply fsq_not_ninf.
Qed.

Lemma min_fun_sums_terms_that_are_not_nan_witness :
  min_fun [Fin 1; Fin 1] [Fin (1 / 2)] [Fin 1] []
  = Ok (fsum (filter notnan
               (q4_terms (Fin 1) (Fin 1) [Fin (1 / 2)] [Fin 1]))).
Proof.
  apply (min_fun_sums_terms_that_are_not_nan
           (Fin 1) (Fin 1) [] [Fin (1 / 2)] [Fin 1] []).
  simpl. lia.
Defined.

(** The term at [alpha = beta = 1] of an observation at rest ([v = 0]) on
    the ground ([y = 0]): [expi(0)] is [-inf], and so the term is [+inf]. *)
Lemma q4_term_at_rest : q4_term (Fin 1) (Fin 1) (Fin 0) (Fin 0) = PInf.
Proof.
  unfold q4_term, fsq, fsub. fl_eval. reflexivity.
Qed.

(** C1, as stated, fails: with one observation at rest the only term is
    [+inf]; were it excluded the sum would be [0], but [min_fun] returns
    [+inf]. *)
Lemma min_fun_keeps_infinite_term :
  q4_terms (Fin 1) (Fin 1) [Fin 0] [Fin 0] = [PInf]
  /\ fsum (filter isfinite (q4_terms (Fin 1) (Fin 1) [Fin 0] [Fin 0])) = Fin 0
  /\ min_fun [Fin 1; Fin 1] [Fin 0] [Fin 0] [] = Ok PInf.
Proof.
  assert (E : q4_terms (Fin 1) (Fin 1) [Fin 0] [Fin 0] = [PInf]).
  { unfold q4_terms. simpl. rewrite q4_term_at_rest. reflexivity. }
  split; [exact E|]. split.
  - rewrite E. reflexivity.
  - rewrite min_fun_sum by (simpl; lia). rewrite E. reflexivity.
Qed.

(** C9 (amended).  When every term of the sum is [nan], [min_fun] and
    [min_fun_v] report no error: each returns the residual [0]. *)
Theorem objective_of_nan_terms_is_zero
    (alpha beta V0k : fl) (xs vvals velocities yvals err : list fl) :
  (length vvals <= length yvals)%nat ->
  (length velocities <= length yvals)%nat ->
  Forall (fun t => isnan t = true) (q4_terms alpha beta vvals yvals) ->
  Forall (fun t => isnan t = true)
    (q4_terms alpha beta
       (map (fun v => fdiv v (fmul V0k (Fin 1000))) velocities) yvals) ->
  min_fun (alpha :: beta :: xs) vvals yvals err = Ok (Fin 0)
  /\ min_fun_v (alpha :: beta :: V0k :: xs) velocities yvals err = Ok (Fin 0).
Proof.
  intros H1 H2 N1 N2. split.
  - rewrite min_fun_sum by assumption.
    rewrite (nansum_all_nan _ N1). reflexivity.
  - rewrite min_fun_v_sum by assumption.
    rewrite (nansum_all_nan _ N2). reflexivity.
Qed.

(** At [beta = 0] the term is [nan]: [expi(0) - expi(0)] is
    [-inf - (-inf)]. *)
Lemma q4_term_beta_zero (alpha v y : R) :
  q4_term (Fin alpha) (Fin 0) (Fin v) (Fin y) = NaN.
Proof. unfold q4_term, fsq, fsub. fl_eval. reflexivity. Qed.

Lemma objective_of_nan_terms_is_zero_witness :
  min_fun [Fin 1; Fin 0] [Fin (1 / 2)] [Fin 1] [] = Ok (Fin 0)
  /\ min_fun_v [Fin 1; Fin 0; Fin 2] [Fin 1] [Fin 1] [] = Ok (Fin 0).
Proof.
  apply (objective_of_nan_terms_is_zero
           (Fin 1) (Fin 0) (Fin 2) [] [Fin (1 / 2)] [Fin 1] [Fin 1] []).
  - simpl. lia.
  - simpl. lia.
  - unfold q4_terms. simpl. rewrite q4_term_beta_zero.
    repeat constructor.
  - unfold q4_terms. cbn [map combine fst snd fmul].
    rewrite fdiv_fin by lra. rewrite q4_term_beta_zero.
    repeat constructor.
Defined.

(** C9, as stated, fails: at [beta = 0] the only term is [nan], so every
    term is excluded, and [min_fun] returns the residual [0] where an
    error is asked for. *)
Lemma objective_of_nan_terms_raises_nothing :
  Forall (fun t => isfinite t = false)
    (q4_terms (Fin 1) (Fin 0) [Fin (1 / 2)] [Fin 1])
  /\ min_fun [Fin 1; Fin 0] [Fin (1 / 2)] [Fin 1] [] = Ok (Fin 0)
  /\ ~ raises (min_fun [Fin 1; Fin 0] [Fin (1 / 2)] [Fin 1] []).
Proof.
  assert (E : q4_terms (Fin 1) (Fin 0) [Fin (1 / 2)] [Fin 1] = [NaN]).
  { unfold q4_terms. simpl. rewrite q4_term_beta_zero. reflexivity. }
  assert (M : min_fun [Fin 1; Fin 0] [Fin (1 / 2)] [Fin 1] [] = Ok (Fin 0)).
  { rewrite min_fun_sum by (simpl; lia). rewrite E.
    rewrite nansum_all_nan by (repeat constructor). reflexivity. }
  split; [rewrite E; repeat constructor|].
  split; [exact M|].
  intros [e He]. rewrite M in He. discriminate.
Qed.

(* ===================================================================== *)
(** * Section 1.1: the velocity filter and the reference velocity         *)
(* ===================================================================== *)

Lemma select_rows_filter (data : list row) (vel alt : list fl) :
  select_rows data vel alt
  = (vel ++ map fst (filter kept data), alt ++ map snd (filter kept data)).
Proof.
  revert vel alt. induction data as [|[v h] data IH]; intros vel alt.
  - simpl. rewrite !app_nil_r. reflexivity.
  - cbn [select_rows filter].
    change (kept (v, h)) with (fgt v (Fin 1)).
    destruct (fgt v (Fin 1)).
    + rewrite IH. cbn [map fst snd]. rewrite <- !app_assoc. reflexivity.
    + apply IH.
Qed.

(** The cell, with the selection loop read as a filter. *)
Lemma section_1_1_filter (data : list row) (v0_in : option fl) :
  section_1_1 data v0_in
  = let vel := map fst (filter kept data) in
    let alt := map snd (filter kept data) in
    let v0 := approx_v0 v0_in vel in
    let Vvalues := map (fun v => fdiv v v0) vel in
    match getitem alt 0 with
    | Raise e =>
        ({| vel := vel; alt := alt; v0 := v0; Vvalues := Vvalues;
            h0 := None; Yvalues := None |}, Some e)
    | Ok alt0 =>
        let h0 := if flt alt0 (Fin 1000) then Fin 7.160 else Fin 7160 in
        ({| vel := vel; alt := alt; v0 := v0; Vvalues := Vvalues;
            h0 := Some h0; Yvalues := Some (map (fun a => fdiv a h0) alt) |},
         None)
    end.
Proof. unfold section_1_1. rewrite select_rows_filter. reflexivity. Qed.

Lemma not_greater_than_one (v : fl) :
  fle v (Fin 1) = true -> fgt v (Fin 1) = false.
Proof.
  destruct v as [r| | |]; simpl; try discriminate; try reflexivity.
  intros H. destruct (Rleb_spec r 1) as [Hr|]; [|discriminate].
  apply Rltb_false. lra.
Qed.

Lemma greater_than_one_not_nan (v : fl) :
  fgt v (Fin 1) = true -> isnan v = false.
Proof. destruct v; simpl; intros H; try reflexivity; discriminate. Qed.

Lemma kept_velocities (data : list row) :
  Forall (fun v => fgt v (Fin 1) = true) (map fst (filter kept data)).
Proof.
  apply Forall_forall. intros v Hv.
  apply in_map_iff in Hv. destruct Hv as [r [<- Hr]].
  apply filter_In in Hr. exact (proj2 Hr).
Qed.

(** C4.  An observation whose velocity is [<= 1.0] leaves no trace in the
    cell of Section 1.1: the cell ends as it does on the data without that
    observation (the same arrays, the same reference velocity, computed or
    supplied, the same exception if any); [vel] and [alt] hold the rows
    with a velocity [> 1.], in their order; and a reference velocity that
    was not supplied is the [nanmean] of the first ten entries of that
    filtered [vel]. *)
Theorem velocity_filter_drops_observation
    (before after : list row) (o : row) (v0_in : option fl) :
  fle (fst o) (Fin 1) = true ->
  let g := fst (section_1_1 (before ++ o :: after) v0_in) in
  section_1_1 (before ++ o :: after) v0_in
  = section_1_1 (before ++ after) v0_in
  /\ vel g = map fst (filter kept (before ++ after))
  /\ alt g = map snd (filter kept (before ++ after))
  /\ Forall (fun v => fgt v (Fin 1) = true) (vel g)
  /\ v0 (fst (section_1_1 (before ++ o :: after) None))
     = nanmean (firstn 10 (map fst (filter kept (before ++ after)))).
Proof.
  intros Ho g.
  assert (F : filter kept (before ++ o :: after)
              = filter kept (before ++ after)).
  { rewrite !filter_app. simpl. unfold kept at 2.
    rewrite (not_greater_than_one _ Ho). reflexivity. }
  assert (E : forall w, section_1_1 (before ++ o :: after) w
                        = section_1_1 (before ++ after) w).
  { intros w. rewrite !section_1_1_filter, F. reflexivity. }
  assert (V : forall w, vel (fst (section_1_1 (before ++ after) w))
                        = map fst (filter kept (before ++ after))).
  { intros w. rewrite section_1_1_filter. cbv zeta.
    destruct (getitem _ 0); reflexivity. }
  subst g. rewrite !E. split; [reflexivity|].
  split; [apply V|]. split.
  { rewrite section_1_1_filter. cbv zeta.
    destruct (getitem _ 0); reflexivity. }
  split.
  { rewrite V. apply kept_velocities. }
  rewrite section_1_1_filter. cbv zeta.
  destruct (getitem _ 0); reflexivity.
Qed.

Lemma section_1_1_two_rows :
  section_1_1 [(Fin 2, Fin 0)] None
  = ({| vel := [Fin 2]; alt := [Fin 0]; v0 := Fin 2;
        Vvalues := [Fin 1]; h0 := Some (Fin 7.160);
        Yvalues := Some [Fin 0] |}, None).
Proof.
  unfold section_1_1. cbn [select_rows]. unfold fgt. fl_eval.
  unfold nanmean, nansum, fsum. fl_eval.
  replace ((0 + 2) / 1) with 2 by lra.
  replace (2 / 2) with 1 by lra.
  replace (0 / 7.160) with 0 by lra.
  reflexivity.
Qed.

Lemma velocity_filter_drops_observation_witness :
  section_1_1 ([] ++ (Fin (1 / 2), Fin 9) :: [(Fin 2, Fin 0)]) None
  = ({| vel := [Fin 2]; alt := [Fin 0]; v0 := Fin 2;
        Vvalues := [Fin 1]; h0 := Some (Fin 7.160);
        Yvalues := Some [Fin 0] |}, None).
Proof.
  assert (H : fle (fst (Fin (1 / 2), Fin 9)) (Fin 1) = true)
    by (simpl; apply Rleb_true; lra).
  pose proof (velocity_filter_drops_observation
                [] [(Fin 2, Fin 0)] (Fin (1 / 2), Fin 9) None H) as W.
  cbv zeta in W. destruct W as [W _].
  exact (eq_trans W section_1_1_two_rows).
Defined.

Lemma nanmean_is_mean (l : list fl) :
  Forall (fun x => isnan x = false) l ->
  nanmean l = fdiv (fsum l) (Fin (INR (length l))).
Proof.
  intros H. unfold nanmean. rewrite (nansum_no_nan _ H).
  do 3 f_equal.
  induction H as [|x l Hx _ IH]; simpl; [reflexivity|].
  unfold notnan at 1. rewrite Hx. simpl. f_equal. exact IH.
Qed.

(** C5 (amended).  When no reference velocity is supplied, the cell takes
    the mean of the velocities of the first ten observations that passed
    the velocity filter (of all of them when fewer passed): their sum over
    their number.  When none passed, that mean is [0/0 = nan], which [v0]
    keeps, and the cell stops on [alt[0]] with an [IndexError]; otherwise
    it raises nothing. *)
Theorem reference_velocity_is_mean_of_first_ten (data : list row) :
  let g := fst (section_1_1 data None) in
  let first := firstn 10 (vel g) in
  vel g = map fst (filter kept data)
  /\ v0 g = fdiv (fsum first) (Fin (INR (length first)))
  /\ match vel g with
     | [] => v0 g = NaN /\ snd (section_1_1 data None) = Some IndexError
     | _ :: _ => snd (section_1_1 data None) = None
     end.
Proof.
  cbv zeta. rewrite section_1_1_filter. cbv zeta.
  assert (A : length (map snd (filter kept data))
              = length (map fst (filter kept data)))
    by (rewrite !length_map; reflexivity).
  assert (M : nanmean (firstn 10 (map fst (filter kept data)))
              = fdiv (fsum (firstn 10 (map fst (filter kept data))))
                  (Fin (INR (length (firstn 10 (map fst (filter kept data))))))).
  { apply nanmean_is_mean. apply Forall_forall. intros v Hv.
    apply greater_than_one_not_nan.
    pose proof (kept_velocities data) as K.
    rewrite Forall_forall in K. apply K.
    rewrite <- (firstn_skipn 10). apply in_or_app. left. exact Hv. }
  destruct (map fst (filter kept data)) as [|v vs] eqn:Ev;
    destruct (map snd (filter kept data)) as [|h hs] eqn:Eh;
    try discriminate.
  - simpl. split; [reflexivity|]. split; [exact M|].
    split; [|reflexivity].
    unfold nanmean, nansum, fsum. fl_eval. reflexivity.
  - change (getitem (h :: hs) 0) with (Ok h). cbv iota beta.
    cbn [vel v0 fst snd approx_v0].
    split; [reflexivity|]. split; [exact M|]. reflexivity.
Qed.

(** C5, as stated, fails: on an empty table the cell computes the
    reference velocity [nan], leaves it in [v0], and only then stops, with
    the [IndexError] of [alt[0]]. *)
Lemma empty_data_leaves_nan_reference_velocity :
  section_1_1 [] None
  = ({| vel := []; alt := []; v0 := NaN; Vvalues := [];
        h0 := None; Yvalues := None |}, Some IndexError).
Proof.
  unfold section_1_1. cbn [select_rows].
  unfold approx_v0, nanmean, nansum, fsum. fl_eval. reflexivity.
Qed.

(** What the cell of Section 1.1 leaves behind when it raises nothing. *)
Lemma section_1_1_ok (data : list row) (v0_in : option fl) (g : normalised) :
  section_1_1 data v0_in = (g, None) ->
  exists hh,
    h0 g = Some hh
    /\ Yvalues g = Some (map (fun a => fdiv a hh) (alt g))
    /\ Vvalues g = map (fun v => fdiv v (v0 g)) (vel g)
    /\ length (vel g) = length (alt g).
Proof.
  rewrite section_1_1_filter. cbv zeta.
  destruct (getitem _ 0) as [alt0|e]; [|discriminate].
  intros [= <-]. cbn [h0 Yvalues Vvalues vel alt v0].
  eexists. repeat split. rewrite !length_map. reflexivity.
Qed.

(* ===================================================================== *)
(** * Section 2.1: the two smoothing passes                                *)
(* ===================================================================== *)

Lemma getitem_nth (l : list fl) (k : nat) :
  (k < length l)%nat -> getitem l (Z.of_nat k) = Ok (nth k l NaN).
Proof.
  intros H. apply getitem_nth_error. apply nth_error_nth'. exact H.
Qed.

Lemma smooth_loop_ok (vel alt : list fl) (ks : list nat) (vel1 alt1 : list fl) :
  Forall (fun k => (k + 2 < length vel)%nat /\ (k + 1 < length alt)%nat) ks ->
  smooth_loop vel alt (map (fun k => (1 + Z.of_nat k)%Z) ks) vel1 alt1
  = Ok (vel1 ++ map (fun i => mean3 (nth i vel NaN) (nth (i + 1) vel NaN)
                                 (nth (i + 2) vel NaN)) ks,
        alt1 ++ map (fun i => nth (i + 1) alt NaN) ks).
Proof.
  intros H. revert vel1 alt1.
  induction H as [|k ks [Hv Ha] _ IH]; intros vel1 alt1.
  - simpl. rewrite !app_nil_r. reflexivity.
  - cbn [map smooth_loop].
    replace (1 + Z.of_nat k - 1)%Z with (Z.of_nat k) by lia.
    replace (1 + Z.of_nat k + 1)%Z with (Z.of_nat (k + 2)) by lia.
    replace (1 + Z.of_nat k)%Z with (Z.of_nat (k + 1)) by lia.
    rewrite !getitem_nth by lia. cbn [bind].
    rewrite IH, <- !app_assoc. reflexivity.
Qed.

(** One pass, in closed form. *)
Lemma smooth_pass_ok (vel alt : list fl) :
  length alt = length vel ->
  smooth_pass vel alt = Ok (smoothed vel, middle (length vel) alt).
Proof.
  intros H. unfold smooth_pass, range, len.
  replace (Z.to_nat (Z.of_nat (length vel) - 1 - 1)) with (length vel - 2)%nat
    by lia.
  rewrite (smooth_loop_ok vel alt (seq 0 (length vel - 2)) [] []).
  - reflexivity.
  - apply Forall_forall. intros k Hk. apply in_seq in Hk. lia.
Qed.

Lemma length_smoothed (l : list fl) : length (smoothed l) = (length l - 2)%nat.
Proof. unfold smoothed. rewrite length_map, length_seq. reflexivity. Qed.

Lemma length_middle (n : nat) (l : list fl) :
  length (middle n l) = (n - 2)%nat.
Proof. unfold middle. rewrite length_map, length_seq. reflexivity. Qed.

Lemma nth_map_seq (f : nat -> fl) (n i : nat) :
  (i < n)%nat -> nth i (map f (seq 0 n)) NaN = f i.
Proof.
  intros H. transitivity (nth i (map f (seq 0 n)) (f 0%nat)).
  - apply nth_indep. rewrite length_map, length_seq. exact H.
  - rewrite (map_nth f), seq_nth by exact H. reflexivity.
Qed.

Lemma nth_middle (n : nat) (l : list fl) (i : nat) :
  (i < n - 2)%nat -> nth i (middle n l) NaN = nth (i + 1) l NaN.
Proof. intros H. unfold middle. rewrite nth_map_seq by exact H. reflexivity. Qed.

(** Entry [i] of a pass over [l]. *)
Lemma nth_smoothed (l : list fl) (i : nat) :
  (i < length l - 2)%nat ->
  nth i (smoothed l) NaN
  = mean3 (nth i l NaN) (nth (i + 1) l NaN) (nth (i + 2) l NaN).
Proof. intros H. unfold smoothed. rewrite nth_map_seq by exact H. reflexivity. Qed.

(** The heights after two passes are those of the indices [2 .. n-3]. *)
Lemma middle_middle (vel alt : list fl) :
  middle (length (smoothed vel)) (middle (length vel) alt)
  = map (fun i => nth (i + 2) alt NaN) (seq 0 (length vel - 4)).
Proof.
  rewrite length_smoothed. unfold middle at 1.
  replace (length vel - 2 - 2)%nat with (length vel - 4)%nat by lia.
  apply map_ext_in. intros i Hi. apply in_seq in Hi.
  rewrite nth_middle by lia. f_equal. lia.
Qed.

(** C6 (amended).  On velocities and heights of one length [n], a single
    pass raises nothing and returns [n - 2] entries (none when [n < 2]):
    entry [i] is [(vel[i] + vel[i+1] + vel[i+2]) / 3], paired with the
    height [alt[i+1]].  The cell, which passes twice, raises nothing
    either and returns [n - 4] entries (none when [n < 4]): the moving
    average of the once-smoothed velocities, paired with the heights
    [alt[i+2]]; so it shortens the data by exactly 4 when [n >= 4], and
    by [n] otherwise. *)
Theorem smoothing_passes (vel alt : list fl) (v0_in : option fl) :
  length alt = length vel ->
  smooth_pass vel alt = Ok (smoothed vel, middle (length vel) alt)
  /\ length (smoothed vel) = (length vel - 2)%nat
  /\ section_2_1 vel alt v0_in
     = Ok (smoothed (smoothed vel),
           map (fun i => nth (i + 2) alt NaN) (seq 0 (length vel - 4)),
           approx_v0 v0_in vel)
  /\ length (smoothed (smoothed vel)) = (length vel - 4)%nat
  /\ (length vel - length (smoothed (smoothed vel)))%nat
     = Nat.min 4 (length vel).
Proof.
  intros H.
  assert (L2 : length (smoothed (smoothed vel)) = (length vel - 4)%nat)
    by (rewrite !length_smoothed; lia).
  split; [apply smooth_pass_ok; exact H|].
  split; [apply length_smoothed|].
  split; [|split; [exact L2 | lia]].
  unfold section_2_1. rewrite (smooth_pass_ok vel alt H). cbn [bind].
  rewrite smooth_pass_ok
    by (rewrite length_middle, length_smoothed; reflexivity).
  cbn [bind]. rewrite middle_middle. reflexivity.
Qed.

Lemma smoothing_passes_witness :
  section_2_1 [Fin 6; Fin 6; Fin 6; Fin 6; Fin 6]
              [Fin 5; Fin 4; Fin 3; Fin 2; Fin 1] (Some (Fin 6))
  = Ok (smoothed (smoothed [Fin 6; Fin 6; Fin 6; Fin 6; Fin 6]),
        [Fin 3], Fin 6).
Proof.
  exact (proj1 (proj2 (proj2
    (smoothing_passes [Fin 6; Fin 6; Fin 6; Fin 6; Fin 6]
                      [Fin 5; Fin 4; Fin 3; Fin 2; Fin 1] (Some (Fin 6))
                      eq_refl)))).
Defined.

(** The smoothing of a constant sequence is that constant again. *)
Lemma mean3_constant (c : R) : mean3 (Fin c) (Fin c) (Fin c) = Fin c.
Proof. unfold mean3. fl_eval. f_equal. lra. Qed.

(** C6, as stated, fails on three observations: the first pass leaves
    one entry and the second none, so the length drops by 3, not 4, and
    the cell returns the empty arrays without raising. *)
Lemma smoothing_three_observations :
  section_2_1 [Fin 6; Fin 6; Fin 6] [Fin 3; Fin 2; Fin 1] (Some (Fin 6))
  = Ok ([], [], Fin 6)
  /\ (length [Fin 6; Fin 6; Fin 6] - length (@nil fl) = 3)%nat
  /\ ~ raises (section_2_1 [Fin 6; Fin 6; Fin 6] [Fin 3; Fin 2; Fin 1]
                 (Some (Fin 6))).
Proof.
  assert (E : section_2_1 [Fin 6; Fin 6; Fin 6] [Fin 3; Fin 2; Fin 1]
                (Some (Fin 6)) = Ok ([], [], Fin 6)).
  { unfold section_2_1.
    rewrite smooth_pass_ok by reflexivity. cbn [bind].
    rewrite smooth_pass_ok by reflexivity. reflexivity. }
  split; [exact E|]. split; [reflexivity|].
  intros [e He]. rewrite E in He. discriminate.
Qed.

(* ===================================================================== *)
(** * [scipy.optimize.minimize]: its contract, and a minimiser meeting it *)
(* ===================================================================== *)

Lemma clip_within (x lo hi : fl) :
  isnan x = false -> fle lo hi = true -> within (clip x (lo, hi)) (lo, hi).
Proof.
  unfold within, clip. cbn [fst snd].
  destruct x as [x| | |], lo as [lo| | |], hi as [hi| | |];
    cbn [isnan fle flt]; intros Hx Hb; try discriminate;
    repeat match goal with
      | |- context [Rltb ?a ?b] => destruct (Rltb_spec a b)
      | H : Rleb ?a ?b = true |- _ =>
          destruct (Rleb_spec a b); [clear H | discriminate H]
      end;
    cbn [fle]; split; try reflexivity; apply Rleb_true; lra.
Qed.

Lemma project_only_respects_bounds : respects_bounds project_only.
Proof.
  intros f x0 bnds res Hnan. unfold project_only.
  destruct (length x0 =? length bnds)%nat eqn:El; [|discriminate].
  destruct (forallb _ bnds) eqn:Eb; [|discriminate].
  cbn [andb]. destruct (f _) as [v|e]; [|discriminate].
  cbn [bind]. intros [= <-]. cbn [res_x].
  apply Nat.eqb_eq in El. rewrite forallb_forall in Eb.
  clear v f. revert bnds El Eb.
  induction Hnan as [|x x0 Hx _ IH]; intros [|[lo hi] bnds] El Eb;
    try discriminate; cbn [combine map]; constructor.
  - apply clip_within; [exact Hx|]. apply (Eb (lo, hi)). left. reflexivity.
  - apply IH; [simpl in El; lia|].
    intros b Hb. apply Eb. right. exact Hb.
Qed.

Lemma project_only_reports_objective : reports_objective project_only.
Proof.
  intros f x0 bnds res. unfold project_only.
  destruct (_ && _); [|discriminate].
  destruct (f _) as [v|e] eqn:Ef; [|discriminate].
  cbn [bind]. intros [= <-]. cbn [res_x res_fun]. exact Ef.
Qed.

(** A value between finite bounds is finite. *)
Lemma within_finite (x : fl) (lo hi : R) :
  within x (Fin lo, Fin hi) -> exists r, x = Fin r /\ lo <= r <= hi.
Proof.
  unfold within. cbn [fst snd].
  destruct x as [r| | |]; cbn [fle]; intros [H1 H2]; try discriminate.
  exists r. split; [reflexivity|].
  destruct (Rleb_spec lo r); [|discriminate].
  destruct (Rleb_spec r hi); [|discriminate]. lra.
Qed.

Lemma within_fin (r lo hi : R) :
  within (Fin r) (Fin lo, Fin hi) <-> lo <= r <= hi.
Proof.
  unfold within. cbn [fst snd fle]. split.
  - intros [H1 H2].
    destruct (Rleb_spec lo r); [|discriminate].
    destruct (Rleb_spec r hi); [|discriminate]. lra.
  - intros [H1 H2]. split; apply Rleb_true; assumption.
Qed.

Lemma Forall2_two {A B : Type} (P : A -> B -> Prop) (a1 a2 : A) (b1 b2 : B) :
  Forall2 P [a1; a2] [b1; b2] <-> P a1 b1 /\ P a2 b2.
Proof.
  rewrite !Forall2_cons_iff. split.
  - intros (H1 & H2 & _). split; assumption.
  - intros (H1 & H2). repeat split; try assumption. constructor.
Qed.

Lemma Forall2_three {A B : Type} (P : A -> B -> Prop)
    (a1 a2 a3 : A) (b1 b2 b3 : B) :
  Forall2 P [a1; a2; a3] [b1; b2; b3] <-> P a1 b1 /\ P a2 b2 /\ P a3 b3.
Proof.
  rewrite !Forall2_cons_iff. split.
  - intros (H1 & H2 & H3 & _). repeat split; assumption.
  - intros (H1 & H2 & H3). repeat split; try assumption. constructor.
Qed.

(** [exp(y) / c] is a number when [y] is one and [c] is not zero. *)
Lemma start_alpha_not_nan (y : fl) (c : R) :
  c <> 0 -> isnan y = false -> isnan (fdiv (fexp y) (Fin c)) = false.
Proof.
  intros Hc Hy. destruct y as [r| | |]; try discriminate; cbn [fexp fdiv].
  - rewrite Reqb_false by exact Hc. reflexivity.
  - destruct (Rltb c 0); reflexivity.
  - rewrite Reqb_false by exact Hc. reflexivity.
Qed.

(* ===================================================================== *)
(** * The two estimators                                                   *)
(* ===================================================================== *)

Lemma Q4_min_x0_value (Y : list fl) {ylast : fl} :
  getitem Y (-1) = Ok ylast ->
  Q4_min_x0 (Some Y) = Ok [fdiv (fexp ylast) (fmul (Fin 2) (Fin 1)); Fin 1].
Proof. intros H. unfold Q4_min_x0. cbn [global bind]. rewrite H. reflexivity. Qed.

Lemma Q4_min_run (minimize : minimizer) (Y vvals yvals err : list fl)
    {ylast : fl} :
  getitem Y (-1) = Ok ylast ->
  Q4_min minimize (Some Y) vvals yvals err
  = (res <- minimize (fun x => min_fun x vvals yvals err)
              [fdiv (fexp ylast) (fmul (Fin 2) (Fin 1)); Fin 1]
              [(Fin 0.01, Fin 1000); (Fin 0.0001, Fin 20)] ;;
     Ok (res_x res)).
Proof.
  intros H. unfold Q4_min. rewrite (Q4_min_x0_value Y H). reflexivity.
Qed.

(** Before any cell has made [Yvalues], and on an empty [Yvalues],
    [Q4_min] stops before it minimises. *)
Lemma Q4_min_without_heights (minimize : minimizer) (vvals yvals err : list fl) :
  Q4_min minimize None vvals yvals err = Raise NameError
  /\ Q4_min minimize (Some []) vvals yvals err = Raise IndexError.
Proof. split; reflexivity. Qed.

(** So does [Q4_min_v] on no observation at all, which is what two
    smoothing passes leave of fewer than five. *)
Lemma Q4_min_v_no_observation (minimize : minimizer) (h0 V0 : fl)
    (err : list fl) :
  Q4_min_v minimize [] [] h0 V0 err = Raise IndexError.
Proof. reflexivity. Qed.

(** [l[-1]] under an entrywise operation. *)
Lemma getitem_last_map (f : fl -> fl) (l : list fl) (a : fl) :
  getitem l (-1) = Ok a -> getitem (map f l) (-1) = Ok (f a).
Proof.
  intros H. apply getitem_last_inv in H. destruct H as [l' ->].
  rewrite map_app. apply getitem_last.
Qed.

(** The minimiser that only projects, on the arrays that the cell of
    Section 1.1 makes of one observation on the ground: the start
    [(1/2, 1)] is in the box already. *)
Lemma project_only_ground :
  project_only (fun x => min_fun x [Fin 1] [Fin 0] [])
    [fdiv (fexp (Fin 0)) (fmul (Fin 2) (Fin 1)); Fin 1] Q4_min_bnds
  = Ok {| res_x := [Fin (1 / 2); Fin 1];
          res_fun := nansum (q4_terms (Fin (1 / 2)) (Fin 1) [Fin 1] [Fin 0])
       |}.
Proof.
  cbn [fexp fmul]. rewrite exp_0, fdiv_fin by lra.
  replace (1 / (2 * 1)) with (1 / 2) by lra.
  unfold project_only, Q4_min_bnds, Q4_min_xmin, Q4_min_xmax.
  cbn [length Nat.eqb forallb fst snd fle andb combine map]. rdec.
  cbn [andb]. unfold clip. cbn [fst snd flt]. rdec.
  rewrite min_fun_sum by (simpl; lia). reflexivity.
Qed.

Lemma Q4_min_project_only_ground :
  Q4_min project_only (Some [Fin 0]) [Fin 1] [Fin 0] []
  = Ok [Fin (1 / 2); Fin 1].
Proof.
  rewrite (Q4_min_run project_only [Fin 0] [Fin 1] [Fin 0] []
             (ylast := Fin 0) eq_refl).
  change [(Fin 0.01, Fin 1000); (Fin 0.0001, Fin 20)] with Q4_min_bnds.
  rewrite project_only_ground. reflexivity.
Qed.

(** C2.  After the cell of Section 1.1, whatever arrays it is called
    on, [Q4_min] starts the minimisation at [beta0 = 1.0] and
    [alpha0 = exp(y_last) / (2 * beta0)], [y_last] being the normalised
    height of the last observation that the cell kept, under the bounds
    [(0.01, 1000)] for alpha and [(0.0001, 20)] for beta; and, the
    minimiser keeping to its bounds, the [(alpha, beta)] it returns has
    [0.01 <= alpha <= 1000] and [0.0001 <= beta <= 20]. *)
Theorem Q4_min_start_bounds_and_result
    {minimize : minimizer} (data : list row) (v0_in : option fl)
    {g : normalised} {hh hlast : fl} (vvals yvals err : list fl) :
  respects_bounds minimize ->
  section_1_1 data v0_in = (g, None) ->
  h0 g = Some hh ->
  getitem (alt g) (-1) = Ok hlast ->
  isnan (fdiv hlast hh) = false ->
  let y_last := fdiv hlast hh in
  let x0 := [fdiv (fexp y_last) (fmul (Fin 2) (Fin 1)); Fin 1] in
  let bnds := [(Fin 0.01, Fin 1000); (Fin 0.0001, Fin 20)] in
  Q4_min_x0 (Yvalues g) = Ok x0
  /\ Q4_min_bnds = bnds
  /\ Q4_min minimize (Yvalues g) vvals yvals err
     = (res <- minimize (fun x => min_fun x vvals yvals err) x0 bnds ;;
        Ok (res_x res))
  /\ forall out,
       Q4_min minimize (Yvalues g) vvals yvals err = Ok out ->
       exists alpha beta,
         out = [alpha; beta]
         /\ within alpha (Fin 0.01, Fin 1000)
         /\ within beta (Fin 0.0001, Fin 20).
Proof.
  intros Hmin Hcell Hh Hlast Hnan. cbv zeta.
  destruct (section_1_1_ok data v0_in g Hcell) as (hh' & Eh & EY & _).
  rewrite Hh in Eh. injection Eh as <-. rewrite EY.
  pose proof (getitem_last_map (fun a => fdiv a hh) _ _ Hlast) as HY.
  split; [apply Q4_min_x0_value; exact HY|].
  split; [reflexivity|].
  split; [apply Q4_min_run; exact HY|].
  intros out. rewrite (Q4_min_run minimize _ vvals yvals err HY).
  destruct (minimize _ _ _) as [res|e] eqn:Em; [|discriminate].
  cbn [bind]. intros [= <-].
  apply Hmin in Em.
  - pose proof (Forall2_length Em) as Hl.
    destruct (res_x res) as [|alpha [|beta [|c xs]]]; try discriminate Hl.
    apply Forall2_cons_iff in Em. destruct Em as [Ha Em].
    apply Forall2_cons_iff in Em. destruct Em as [Hb _].
    exists alpha, beta. split; [reflexivity|]. split; assumption.
  - constructor; [|constructor; [reflexivity | constructor]].
    cbn [fmul]. apply start_alpha_not_nan; [lra | exact Hnan].
Qed.

Lemma Q4_min_start_bounds_and_result_witness :
  exists alpha beta,
    Q4_min project_only (Some [Fin 0]) [Fin 1] [Fin 0] [] = Ok [alpha; beta]
    /\ within alpha (Fin 0.01, Fin 1000)
    /\ within beta (Fin 0.0001, Fin 20).
Proof.
  assert (Hy : isnan (fdiv (Fin 0) (Fin 7.160)) = false)
    by (rewrite fdiv_fin by lra; reflexivity).
  destruct (Q4_min_start_bounds_and_result
              (minimize := project_only) [(Fin 2, Fin 0)] None
              (hlast := Fin 0) [Fin 1] [Fin 0] []
              project_only_respects_bounds section_1_1_two_rows
              eq_refl eq_refl Hy)
    as (_ & _ & _ & Hout).
  destruct (Hout _ Q4_min_project_only_ground) as (alpha & beta & E & Ha & Hb).
  exists alpha, beta. rewrite Q4_min_project_only_ground, E.
  repeat split; try apply Ha; try apply Hb.
Defined.

Lemma getitem_2_of_three (a b c : fl) : getitem [a; b; c] 2 = Ok c.
Proof. reflexivity. Qed.

Lemma setitem_2_of_three (a b c d : fl) :
  setitem [a; b; c] 2 d = Ok [a; b; d].
Proof. reflexivity. Qed.

(** The third pair of bounds, multiplied by 1000 as the third entry of
    the optimum is on return: [0.95 * V0] and [1.05 * V0] in exact
    arithmetic, where [V0 * c / 1000 * 1000] is [c * V0]. *)
Lemma rescaled_bounds_exact (V0 : R) :
  fmul (fdiv (fmul (Fin V0) (Fin 0.95)) (Fin 1000)) (Fin 1000)
  = Fin (0.95 * V0)
  /\ fmul (fdiv (fmul (Fin V0) (Fin 1.05)) (Fin 1000)) (Fin 1000)
     = Fin (1.05 * V0).
Proof.
  rewrite !fdiv_fmul_1000, !fmul_fin. split; f_equal; lra.
Qed.

(** Multiplying by 1000 keeps the order. *)
Lemma within_rescaled (x lo hi : fl) :
  isfinite lo = true -> isfinite hi = true ->
  within x (lo, hi) ->
  within (fmul x (Fin 1000)) (fmul lo (Fin 1000), fmul hi (Fin 1000)).
Proof.
  destruct lo as [l| | |], hi as [h| | |]; try discriminate. intros _ _ H.
  apply within_finite in H. destruct H as (r & -> & Hr).
  rewrite !fmul_fin. apply within_fin. lra.
Qed.

(** C3 (amended).  In [Q4_min_v] the third unknown is [V0/1000]: it
    starts at [V0_guess = V0/1000] under the bounds that the code
    computes as [V0 * 0.95/1000] and [V0 * 1.05/1000]; the objective
    [min_fun_v] divides each velocity by the candidate times 1000; and the
    third entry of the optimum is multiplied by 1000 on return, so that,
    the minimiser keeping to its bounds, the returned [V0] is 1000 times
    a number between the two bounds, and lies between the two bounds
    times 1000.  Every operation is the one of the code, in its order:
    nothing here rests on the arithmetic being exact. *)
Theorem Q4_min_v_third_unknown
    {minimize : minimizer} (velocities heights err : list fl) (h0 : fl)
    {ylast : fl} (V0 : R) :
  respects_bounds minimize ->
  length velocities = length heights ->
  getitem (map (fun j => fdiv j h0) heights) (-1) = Ok ylast ->
  isnan ylast = false ->
  let Yvalues := map (fun j => fdiv j h0) heights in
  let V0_guess := fdiv (Fin V0) (Fin 1000) in
  let x0 := [fdiv (fexp ylast) (fmul (Fin 2) (Fin 0.01)); Fin 0.01; V0_guess] in
  let lo := fdiv (fmul (Fin V0) (Fin 0.95)) (Fin 1000) in
  let hi := fdiv (fmul (Fin V0) (Fin 1.05)) (Fin 1000) in
  let bnds := [(Fin 0.01, Fin 1000); (Fin 0.0001, Fin 20); (lo, hi)] in
  Q4_min_v_x0 Yvalues (Fin V0) = Ok x0
  /\ Q4_min_v_bnds (Fin V0) = bnds
  /\ (forall a b c,
        min_fun_v [a; b; c] velocities Yvalues err
        = Ok (nansum (q4_terms a b
                        (map (fun v => fdiv v (fmul c (Fin 1000))) velocities)
                        Yvalues)))
  /\ forall out,
       Q4_min_v minimize velocities heights h0 (Fin V0) err = Ok out ->
       exists res alpha beta x2,
         minimize (fun x => min_fun_v x velocities Yvalues err) x0 bnds = Ok res
         /\ res_x res = [alpha; beta; x2]
         /\ out = [alpha; beta; fmul x2 (Fin 1000)]
         /\ within x2 (lo, hi)
         /\ within (fmul x2 (Fin 1000))
                   (fmul lo (Fin 1000), fmul hi (Fin 1000)).
Proof.
  intros Hmin Hlen Hlast Hnan. cbv zeta.
  assert (X0 : Q4_min_v_x0 (map (fun j => fdiv j h0) heights) (Fin V0)
               = Ok [fdiv (fexp ylast) (fmul (Fin 2) (Fin 0.01)); Fin 0.01;
                     fdiv (Fin V0) (Fin 1000)]).
  { unfold Q4_min_v_x0. rewrite Hlast. reflexivity. }
  assert (B : Q4_min_v_bnds (Fin V0)
              = [(Fin 0.01, Fin 1000); (Fin 0.0001, Fin 20);
                 (fdiv (fmul (Fin V0) (Fin 0.95)) (Fin 1000),
                  fdiv (fmul (Fin V0) (Fin 1.05)) (Fin 1000))])
    by reflexivity.
  split; [exact X0|]. split; [exact B|]. split.
  { intros a b c. apply min_fun_v_sum. rewrite length_map. lia. }
  intros out. unfold Q4_min_v. rewrite X0, B. cbn [bind].
  destruct (minimize _ _ _) as [res|e] eqn:Em; [|discriminate].
  cbn [bind].
  pose proof Em as Hb. apply Hmin in Hb.
  - pose proof (Forall2_length Hb) as Hl.
    destruct (res_x res) as [|alpha [|beta [|c [|d xs]]]] eqn:Ex;
      try discriminate Hl.
    apply Forall2_three in Hb. destruct Hb as (_ & _ & Hc).
    rewrite getitem_2_of_three. cbn [bind]. rewrite setitem_2_of_three.
    intros [= <-]. exists res, alpha, beta, c.
    split; [reflexivity|]. split; [exact Ex|].
    split; [reflexivity|]. split; [exact Hc|].
    apply within_rescaled; [| |exact Hc];
      rewrite fmul_fin, fdiv_fin by lra; reflexivity.
  - constructor; [|constructor; [reflexivity | constructor; [|constructor]]].
    + cbn [fmul]. apply start_alpha_not_nan; [lra | exact Hnan].
    + rewrite fdiv_fin by lra. reflexivity.
Qed.

(** A run of [Q4_min_v] on one observation on the ground, seed 2000, with
    the minimiser that only projects: the start [(50, 0.01, 2)] is in the
    box, and the third entry comes back as 2000. *)
Lemma Q4_min_v_project_only_ground :
  Q4_min_v project_only [Fin 2000] [Fin 0] (Fin 7160) (Fin 2000) []
  = Ok [Fin 50; Fin 0.01; Fin 2000].
Proof.
  unfold Q4_min_v, Q4_min_v_x0, Q4_min_v_bnds, Q4_min_v_xmin, Q4_min_v_xmax.
  cbn [map fmul]. rewrite !fdiv_fin by lra.
  change (getitem [Fin (0 / 7160)] (-1)) with (Ok (Fin (0 / 7160))).
  cbn [bind fexp]. replace (0 / 7160) with 0 by lra.
  rewrite exp_0, fdiv_fin by lra.
  unfold project_only.
  cbn [length Nat.eqb forallb fst snd fle andb combine map]. rdec.
  cbn [andb]. unfold clip. cbn [fst snd flt]. rdec.
  rewrite min_fun_v_sum by (simpl; lia). cbn [bind res_x].
  rewrite getitem_2_of_three. cbn [bind fmul].
  rewrite setitem_2_of_three. do 2 f_equal; [f_equal; lra|].
  do 2 f_equal. f_equal. lra.
Qed.

Lemma Q4_min_v_third_unknown_witness :
  exists alpha beta x2,
    Q4_min_v project_only [Fin 2000] [Fin 0] (Fin 7160) (Fin 2000) []
    = Ok [alpha; beta; fmul x2 (Fin 1000)]
    /\ within x2 (fdiv (fmul (Fin 2000) (Fin 0.95)) (Fin 1000),
                  fdiv (fmul (Fin 2000) (Fin 1.05)) (Fin 1000)).
Proof.
  assert (Hy : isnan (fdiv (Fin 0) (Fin 7160)) = false)
    by (rewrite fdiv_fin by lra; reflexivity).
  destruct (Q4_min_v_third_unknown
              (minimize := project_only) [Fin 2000] [Fin 0] [] (Fin 7160)
              (ylast := fdiv (Fin 0) (Fin 7160)) 2000
              project_only_respects_bounds eq_refl eq_refl Hy)
    as (_ & _ & _ & Hout).
  destruct (Hout _ Q4_min_v_project_only_ground)
    as (res & alpha & beta & x2 & _ & _ & E & Hx2 & _).
  exists alpha, beta, x2.
  rewrite Q4_min_v_project_only_ground, E. split; [reflexivity | exact Hx2].
Defined.

Section Rounding_of_the_bounds.
Import PrimFloat.

(** C3, as stated, fails in binary64.  For the seed [V0 = 6.0] the lower
    bound of the code, [V0 * 0.95/1000], is not [0.95 * (V0/1000)], and an
    optimum on it comes back, times 1000, as a [V0] below
    [0.95 * 6 = 57/10]; an optimum on the upper bound comes back above
    [1.05 * 6 = 63/10]. *)
Lemma returned_V0_outside_five_percent :
  PrimFloat.eqb (B64.xmin_2 6) (PrimFloat.mul 0.95 (B64.V0_guess 6)) = false
  /\ B64.compare_with (B64.rescale (B64.xmin_2 6)) 57 10 = Some Lt
  /\ B64.compare_with (B64.rescale (B64.xmax_2 6)) 63 10 = Some Gt.
Proof. repeat split; vm_compute; reflexivity. Qed.

End Rounding_of_the_bounds.

(** C10.  The start of [Q4_min] is read off the module-level [Yvalues],
    not off the argument [yvals]: whatever [vvals], [yvals] and [err]
    are, the minimisation starts at [alpha0 = exp(Yvalues[-1]) / 2],
    and two module-level arrays whose last heights differ give two
    different starting points to calls with the same arguments. *)
Theorem Q4_min_start_reads_module_Yvalues
    (minimize : minimizer) (Y1 Y2 : list fl) {y1 y2 : R} :
  getitem Y1 (-1) = Ok (Fin y1) ->
  getitem Y2 (-1) = Ok (Fin y2) ->
  y1 <> y2 ->
  let start y := [fdiv (fexp (Fin y)) (fmul (Fin 2) (Fin 1)); Fin 1] in
  start y1 <> start y2
  /\ forall vvals yvals err,
       Q4_min minimize (Some Y1) vvals yvals err
       = (res <- minimize (fun x => min_fun x vvals yvals err) (start y1)
                   Q4_min_bnds ;;
          Ok (res_x res))
       /\ Q4_min minimize (Some Y2) vvals yvals err
          = (res <- minimize (fun x => min_fun x vvals yvals err) (start y2)
                      Q4_min_bnds ;;
             Ok (res_x res)).
Proof.
  intros H1 H2 Hne. cbv zeta. split.
  - cbn [fexp fmul]. rewrite !fdiv_fin by lra.
    intros [= E]. apply Hne.
    apply exp_inv.
    apply (Rmult_eq_reg_r (/ (2 * 1))); [exact E | apply Rinv_neq_0_compat; lra].
  - intros vvals yvals err. split.
    + apply Q4_min_run. exact H1.
    + apply Q4_min_run. exact H2.
Qed.

(** With the minimiser that only projects, the result itself changes
    with the module-level heights: the arguments are those of the run
    above, the last height is 1 instead of 0. *)
Lemma Q4_min_project_only_height_one :
  Q4_min project_only (Some [Fin 1]) [Fin 1] [Fin 0] []
  = Ok [Fin (exp 1 / 2); Fin 1].
Proof.
  rewrite (Q4_min_run project_only [Fin 1] [Fin 1] [Fin 0] []
             (ylast := Fin 1) eq_refl).
  cbn [fexp fmul]. rewrite fdiv_fin by lra.
  replace (2 * 1) with 2 by lra.
  pose proof exp_le_3 as Hle.
  assert (Hlow : 1 + 1 < exp 1) by (apply exp_ineq1; lra).
  unfold project_only.
  cbn [length Nat.eqb forallb fst snd fle andb combine map]. rdec.
  cbn [andb]. unfold clip. cbn [fst snd flt]. rdec.
  rewrite min_fun_sum by (simpl; lia). reflexivity.
Qed.

Lemma Q4_min_start_reads_module_Yvalues_witness :
  [fdiv (fexp (Fin 0)) (fmul (Fin 2) (Fin 1)); Fin 1]
  <> [fdiv (fexp (Fin 1)) (fmul (Fin 2) (Fin 1)); Fin 1]
  /\ Q4_min project_only (Some [Fin 0]) [Fin 1] [Fin 0] []
     <> Q4_min project_only (Some [Fin 1]) [Fin 1] [Fin 0] [].
Proof.
  assert (Hne : 0 <> 1) by lra.
  split.
  - exact (proj1 (Q4_min_start_reads_module_Yvalues
                    project_only [Fin 0] [Fin 1]
                    (y1 := 0) (y2 := 1) eq_refl eq_refl Hne)).
  - rewrite Q4_min_project_only_ground, Q4_min_project_only_height_one.
    intros [= E].
    assert (Hlow : 1 + 1 < exp 1) by (apply exp_ineq1; lra). lra.
Defined.

(* ===================================================================== *)
(** * Section 3.1: the residual of the manual fit                          *)
(* ===================================================================== *)

(** The manual residual as the code computes it: the two-parameter
    objective on the velocities divided by [(V0/1000.)*1000.]. *)
Lemma f_3_1_normalises_by_round_trip
    (hh : fl) (alt vel : list fl) (V0 alpha beta : fl) :
  length vel = length alt ->
  f_3_1 hh alt vel V0 alpha beta
  = min_fun [alpha; beta]
      (map (fun v => fdiv v (fmul (fdiv V0 (Fin 1000)) (Fin 1000))) vel)
      (map (fun a => fdiv a hh) alt) [].
Proof.
  intros H. unfold f_3_1.
  rewrite min_fun_v_sum by (rewrite length_map; lia).
  rewrite min_fun_sum by (rewrite !length_map; lia).
  reflexivity.
Qed.

(** C8 (amended).  After the cell of Section 1.1 and a run of the
    two-parameter minimisation on its arrays that ends at [(alpha, beta)],
    the manual evaluation at that [(alpha, beta)] and at any [V0] is the
    two-parameter objective on the velocities divided by
    [(V0/1000.)*1000.], where the fit had them divided by [v0].  At the
    reference velocity of the cell, [V0 = v0], and when
    [(v0/1000.)*1000.] gives [v0] back, the manual evaluation is the
    two-parameter objective at [(alpha, beta)] again, which is the final
    objective [res.fun] of the run. *)
Theorem manual_residual_is_final_objective
    {minimize : minimizer} (data : list row) (v0_in : option fl)
    {g : normalised} {x0 Y : list fl} {res : OptimizeResult}
    {hh alpha beta : fl} :
  reports_objective minimize ->
  section_1_1 data v0_in = (g, None) ->
  h0 g = Some hh ->
  Yvalues g = Some Y ->
  Q4_min_x0 (Some Y) = Ok x0 ->
  minimize (fun x => min_fun x (Vvalues g) Y []) x0 Q4_min_bnds = Ok res ->
  res_x res = [alpha; beta] ->
  Q4_min minimize (Yvalues g) (Vvalues g) Y [] = Ok [alpha; beta]
  /\ (forall V0,
        f_3_1 hh (alt g) (vel g) V0 alpha beta
        = min_fun [alpha; beta]
            (map (fun v => fdiv v (fmul (fdiv V0 (Fin 1000)) (Fin 1000)))
                 (vel g))
            Y [])
  /\ (fmul (fdiv (v0 g) (Fin 1000)) (Fin 1000) = v0 g ->
      f_3_1 hh (alt g) (vel g) (v0 g) alpha beta
      = min_fun [alpha; beta] (Vvalues g) Y []
      /\ f_3_1 hh (alt g) (vel g) (v0 g) alpha beta = Ok (res_fun res)).
Proof.
  intros Hobj Hcell Hh HY Hx0 Hrun Hx.
  destruct (section_1_1_ok data v0_in g Hcell) as (hh' & Eh & EY & EV & El).
  rewrite Hh in Eh. injection Eh as <-.
  rewrite HY in EY. injection EY as ->.
  assert (M : forall V0,
            f_3_1 hh (alt g) (vel g) V0 alpha beta
            = min_fun [alpha; beta]
                (map (fun v => fdiv v (fmul (fdiv V0 (Fin 1000)) (Fin 1000)))
                     (vel g))
                (map (fun a => fdiv a hh) (alt g)) []).
  { intros V0. apply f_3_1_normalises_by_round_trip. exact El. }
  split.
  - rewrite HY. unfold Q4_min. rewrite Hx0. cbn [bind].
    rewrite Hrun. cbn [bind]. rewrite Hx. reflexivity.
  - split; [exact M|]. intros Hback.
    assert (M' : f_3_1 hh (alt g) (vel g) (v0 g) alpha beta
                 = min_fun [alpha; beta] (Vvalues g)
                     (map (fun a => fdiv a hh) (alt g)) []).
    { rewrite M, Hback, EV. reflexivity. }
    split; [exact M'|]. rewrite M', <- Hx. exact (Hobj _ _ _ _ Hrun).
Qed.

Lemma manual_residual_is_final_objective_witness :
  f_3_1 (Fin 7.160) [Fin 0] [Fin 2] (Fin 2) (Fin (1 / 2)) (Fin 1)
  = Ok (nansum (q4_terms (Fin (1 / 2)) (Fin 1) [Fin 1] [Fin 0])).
Proof.
  assert (Hback : fmul (fdiv (Fin 2) (Fin 1000)) (Fin 1000) = Fin 2).
  { rewrite fdiv_fin, fmul_fin by lra. f_equal. lra. }
  exact (proj2 (proj2 (proj2
    (manual_residual_is_final_objective
       (minimize := project_only) [(Fin 2, Fin 0)] None
       project_only_reports_objective section_1_1_two_rows
       eq_refl eq_refl eq_refl project_only_ground eq_refl)) Hback)).
Defined.

Section Rounding_of_the_manual_velocity.
Import PrimFloat.

(** C8, as stated, fails in binary64.  For the reference velocity
    [v0 = 1001.0], [(v0/1000.)*1000.] is [1000.9999999999999], not [v0]:
    the manual evaluation then divides the velocity [1001.0] by it and
    has [1.0000000000000002] where the fit had [1001.0/v0 = 1.0], so that
    the two residuals are not computed on the same numbers. *)
Lemma manual_velocity_rounds_differently :
  PrimFloat.eqb (B64.rescale (B64.V0_guess 1001)) 1001 = false
  /\ B64.compare_with (B64.rescale (B64.V0_guess 1001)) 1001 1 = Some Lt
  /\ B64.vval_v 1001 (B64.V0_guess 1001) = 0x1.0000000000001p+0%float
  /\ B64.normalise 1001 1001 = 1%float
  /\ PrimFloat.eqb (B64.vval_v 1001 (B64.V0_guess 1001))
                   (B64.normalise 1001 1001) = false.
Proof. repeat split; vm_compute; reflexivity. Qed.

End Rounding_of_the_manual_velocity.

(* ===================================================================== *)
(** * The final mass                                                       *)
(* ===================================================================== *)

(** [m_txt] on finite inputs, for a positive density and a slope at
    which the trajectory is not horizontal: everything but the
    exponential is a product of reals. *)
Lemma m_txt_finite (alpha beta vlast slope mu cd rho A : R) (Vvalues : list fl) :
  getitem Vvalues (-1) = Ok (Fin vlast) ->
  0 < rho ->
  alpha * sin slope <> 0 ->
  m_txt (Fin alpha) (Fin beta) Vvalues (Fin slope) (Fin mu) (Fin cd)
        (Fin rho) (Fin A)
  = Ok (fmul
          (fmul
             (Fin ((0.5 * cd * 1.29 * 7160 * A
                    / (alpha * sin slope * Rpower rho (2 / 3))) ^ 3))
             (fexp (fdiv (Fin (- beta)) (Fin (1 - mu)))))
          (Fin (1 - vlast ^ 2))).
Proof.
  intros Hlast Hrho Hden. unfold m_txt. rewrite Hlast. cbn [bind].
  assert (Hpow : 0 < Rpower rho (2 / 3)) by apply exp_pos.
  assert (Hd : alpha * sin slope * Rpower rho (2 / 3) <> 0).
  { apply Rmult_integral_contrapositive_currified; [exact Hden | lra]. }
  unfold fcube, fsq, fsub.
  cbn [fsin fpow fneg]. rewrite (Rltb_true 0 rho Hrho).
  repeat (rewrite fmul_fin || rewrite fadd_fin || rewrite (fdiv_fin _ _ Hd)).
  cbn [fneg]. rewrite fadd_fin.
  f_equal. f_equal; [f_equal; f_equal; ring | f_equal; ring].
Qed.




(* ===================================================================== *)
(** * Further properties: the objective                                    *)
(* ===================================================================== *)

Lemma len_map {A B : Type} (f : A -> B) (l : list A) : len (map f l) = len l.
Proof. unfold len. rewrite length_map. reflexivity. Qed.

(** Indexing an array made entry by entry. *)
Lemma getitem_map {A B : Type} (f : A -> B) (l : list A) (i : Z) :
  getitem (map f l) i = (a <- getitem l i ;; Ok (f a)).
Proof.
  unfold getitem. rewrite len_map.
  destruct ((_ <? 0)%Z || (len l <=? _)%Z); [reflexivity|].
  rewrite nth_error_map. destruct (nth_error l _); reflexivity.
Qed.

Lemma getitem_0 {A : Type} (a : A) (l : list A) : getitem (a :: l) 0 = Ok a.
Proof. apply (getitem_nth_error (a :: l) 0%nat a). reflexivity. Qed.

Lemma getitem_1 {A : Type} (a b : A) (l : list A) :
  getitem (a :: b :: l) 1 = Ok b.
Proof. apply (getitem_nth_error (a :: b :: l) 1%nat b). reflexivity. Qed.

Lemma getitem_2 {A : Type} (a b c : A) (l : list A) :
  getitem (a :: b :: c :: l) 2 = Ok c.
Proof. apply (getitem_nth_error (a :: b :: c :: l) 2%nat c). reflexivity. Qed.

(** The loop only looks at [x[0]], [x[1]] and the values of [vval_at]. *)
Lemma q4_loop_ext (f g : Z -> result fl) (x x' yvals : list fl)
    (idx : list Z) (res : list fl) :
  (forall i, f i = g i) ->
  getitem x 0 = getitem x' 0 ->
  getitem x 1 = getitem x' 1 ->
  q4_loop f x yvals idx res = q4_loop g x' yvals idx res.
Proof.
  intros Hf H0 H1. revert res.
  induction idx as [|i idx IH]; intros res; cbn [q4_loop]; [reflexivity|].
  rewrite Hf, H0, H1.
  destruct (g i); cbn [bind]; [|reflexivity].
  destruct (getitem x' 0); cbn [bind]; [|reflexivity].
  destruct (getitem yvals i); cbn [bind]; [|reflexivity].
  destruct (getitem x' 1); cbn [bind]; [|reflexivity].
  apply IH.
Qed.

(** X1.  The three-parameter objective is the two-parameter objective
    on the velocities divided by [x[2] * 1000]: the two functions agree
    on every input, in their value and in their exceptions. *)
Theorem min_fun_v_is_min_fun_of_scaled_velocities
    (a b c : fl) (xs velocities yvals err err' : list fl) :
  min_fun_v (a :: b :: c :: xs) velocities yvals err
  = min_fun [a; b] (map (fun v => fdiv v (fmul c (Fin 1000))) velocities)
      yvals err'.
Proof.
  unfold min_fun_v, min_fun. rewrite len_map.
  rewrite (q4_loop_ext
             (vval_v (a :: b :: c :: xs) velocities)
             (fun i => getitem
                         (map (fun v => fdiv v (fmul c (Fin 1000))) velocities)
                         i)
             (a :: b :: c :: xs) [a; b]).
  - reflexivity.
  - intros i. unfold vval_v. rewrite getitem_map.
    destruct (getitem velocities i); cbn [bind]; [|reflexivity].
    rewrite getitem_2. reflexivity.
  - rewrite !getitem_0. reflexivity.
  - rewrite !getitem_1. reflexivity.
Qed.

(** X2.  With fewer heights than velocities, [yvals[i]] runs off the end:
    [min_fun] and [min_fun_v] raise [IndexError], whatever the
    parameters, and return no residual. *)
Theorem short_heights_raise_index_error
    (a b c : fl) (xs vvals yvals err : list fl) :
  (length yvals < length vvals)%nat ->
  min_fun (a :: b :: xs) vvals yvals err = Raise IndexError
  /\ min_fun_v (a :: b :: c :: xs) vvals yvals err = Raise IndexError.
Proof.
  intros H. split; [apply min_fun_short_heights; exact H|].
  transitivity
    (min_fun [a; b] (map (fun v => fdiv v (fmul c (Fin 1000))) vvals)
       yvals err).
  - unfold min_fun_v, min_fun. rewrite len_map.
    rewrite (q4_loop_ext
               (vval_v (a :: b :: c :: xs) vvals)
               (fun i => getitem
                           (map (fun v => fdiv v (fmul c (Fin 1000))) vvals) i)
               (a :: b :: c :: xs) [a; b]).
    + reflexivity.
    + intros i. unfold vval_v. rewrite getitem_map.
      destruct (getitem vvals i); cbn [bind]; [|reflexivity].
      rewrite getitem_2. reflexivity.
    + rewrite !getitem_0. reflexivity.
    + rewrite !getitem_1. reflexivity.
  - apply min_fun_short_heights. rewrite length_map. exact H.
Qed.

Lemma short_heights_raise_index_error_witness :
  min_fun [Fin 1; Fin 1] [Fin 1; Fin 1] [Fin 0] [] = Raise IndexError
  /\ min_fun_v [Fin 1; Fin 1; Fin 1] [Fin 1; Fin 1] [Fin 0] []
     = Raise IndexError.
Proof.
  apply (short_heights_raise_index_error
           (Fin 1) (Fin 1) (Fin 1) [] [Fin 1; Fin 1] [Fin 0] []).
  simpl. lia.
Defined.

Lemma combine_surplus {A B : Type} (l1 : list A) (l2 extra : list B) :
  (length l1 <= length l2)%nat -> combine l1 (l2 ++ extra) = combine l1 l2.
Proof.
  revert l2. induction l1 as [|a l1 IH]; intros [|b l2] H; simpl in *;
    try reflexivity; try lia.
  f_equal. apply IH. lia.
Qed.

(** X3.  Heights beyond the number of velocities are never read: the
    objective is the same with and without them. *)
Theorem min_fun_ignores_surplus_heights
    (a b : fl) (xs vvals yvals extra err : list fl) :
  (length vvals <= length yvals)%nat ->
  min_fun (a :: b :: xs) vvals (yvals ++ extra) err
  = min_fun (a :: b :: xs) vvals yvals err.
Proof.
  intros H.
  rewrite !min_fun_sum by (rewrite ?length_app; lia).
  unfold q4_terms. rewrite combine_surplus by exact H. reflexivity.
Qed.

Lemma min_fun_ignores_surplus_heights_witness :
  min_fun [Fin 1; Fin 1] [Fin 1] ([Fin 0] ++ [Fin 5; NaN]) []
  = min_fun [Fin 1; Fin 1] [Fin 1] [Fin 0] [].
Proof.
  apply (min_fun_ignores_surplus_heights
           (Fin 1) (Fin 1) [] [Fin 1] [Fin 0] [Fin 5; NaN] []).
  simpl. lia.
Defined.

(** A term of the objective is a square: [nan], or not below zero. *)
Definition square_like (t : fl) : Prop :=
  isnan t = true \/ fle (Fin 0) t = true.

Lemma fsq_square_like (x : fl) : square_like (fsq x).
Proof.
  destruct x as [r| | |]; cbn; [right | right | right | left];
    try reflexivity.
  apply Rleb_true. nra.
Qed.

Lemma q4_loop_square_like (f : Z -> result fl) (x yvals : list fl)
    (idx : list Z) (res out : list fl) :
  Forall square_like res ->
  q4_loop f x yvals idx res = Ok out ->
  Forall square_like out.
Proof.
  revert res. induction idx as [|i idx IH]; intros res Hres; cbn [q4_loop].
  - intros [= <-]. exact Hres.
  - destruct (f i) as [v|]; cbn [bind]; [|discriminate].
    destruct (getitem x 0) as [x0|]; cbn [bind]; [|discriminate].
    destruct (getitem yvals i) as [y|]; cbn [bind]; [|discriminate].
    destruct (getitem x 1) as [x1|]; cbn [bind]; [|discriminate].
    apply IH. apply Forall_app. split; [exact Hres|].
    constructor; [apply fsq_square_like | constructor].
Qed.

Lemma nansum_of_squares (l : list fl) (acc : fl) :
  Forall square_like l ->
  fle (Fin 0) acc = true ->
  fle (Fin 0) (fold_left fadd (map nan_to_zero l) acc) = true.
Proof.
  intros H. revert acc.
  induction H as [|t l Ht _ IH]; intros acc Ha; cbn [map fold_left];
    [exact Ha|].
  apply IH.
  destruct Ht as [Ht | Ht]; destruct t as [r| | |], acc as [s| | |];
    cbn in *; try discriminate; try reflexivity; try exact Ha.
  - apply Rleb_true. destruct (Rleb_spec 0 s); [lra | discriminate].
  - apply Rleb_true.
    destruct (Rleb_spec 0 s); [|discriminate].
    destruct (Rleb_spec 0 r); [lra | discriminate].
Qed.

(** X4.  Whatever their arguments, when [min_fun] and [min_fun_v] return
    they return a residual that is not negative and not [nan]: a number
    [>= 0] or [+inf]. *)
Theorem objective_is_not_negative
    (x vvals velocities yvals err : list fl) :
  (forall r, min_fun x vvals yvals err = Ok r -> fle (Fin 0) r = true)
  /\ (forall r, min_fun_v x velocities yvals err = Ok r ->
                fle (Fin 0) r = true).
Proof.
  assert (Z0 : fle (Fin 0) (Fin 0) = true) by (apply Rleb_true; lra).
  split; intros r; unfold min_fun, min_fun_v.
  - destruct (q4_loop _ x yvals (range 0 (len vvals)) []) as [out|] eqn:E;
      cbn [bind]; [|discriminate].
    intros [= <-]. apply nansum_of_squares; [|exact Z0].
    exact (q4_loop_square_like _ x yvals _ [] out (Forall_nil _) E).
  - destruct (q4_loop _ x yvals (range 0 (len velocities)) []) as [out|] eqn:E;
      cbn [bind]; [|discriminate].
    intros [= <-]. apply nansum_of_squares; [|exact Z0].
    exact (q4_loop_square_like _ x yvals _ [] out (Forall_nil _) E).
Qed.

Lemma fadd_nan_r (x : fl) : fadd x NaN = NaN.
Proof. destruct x; reflexivity. Qed.

Lemma fmul_nan_r (x : fl) : fmul x NaN = NaN.
Proof. destruct x; reflexivity. Qed.

Lemma fmul_nan_l (x : fl) : fmul NaN x = NaN.
Proof. reflexivity. Qed.

Lemma q4_term_nan_velocity (a b y : fl) : q4_term a b NaN y = NaN.
Proof.
  unfold q4_term, fsq, fsub.
  rewrite (fmul_nan_l NaN), fmul_nan_r. cbn [fexpi fneg].
  rewrite fadd_nan_r, fmul_nan_l. cbn [fneg].
  rewrite fadd_nan_r. reflexivity.
Qed.

Lemma q4_term_nan_height (a b v : fl) : q4_term a b v NaN = NaN.
Proof.
  unfold q4_term, fsq, fsub. cbn [fneg fexp].
  rewrite fmul_nan_r. reflexivity.
Qed.

Lemma combine_app_same {A B : Type} (l1 l1' : list A) (l2 l2' : list B) :
  length l1 = length l2 ->
  combine (l1 ++ l1') (l2 ++ l2') = combine l1 l2 ++ combine l1' l2'.
Proof.
  revert l2. induction l1 as [|a l1 IH]; intros [|b l2] H; simpl in *;
    try reflexivity; try discriminate.
  f_equal. apply IH. lia.
Qed.

(** X5.  An observation with a [nan] velocity or a [nan] height is
    passed over: the objective, value or exception, is what it is
    without that observation. *)
Theorem min_fun_passes_over_nan_observation
    (a b v y : fl) (xs v1 v2 y1 y2 err : list fl) :
  length v1 = length y1 ->
  isnan v = true \/ isnan y = true ->
  min_fun (a :: b :: xs) (v1 ++ v :: v2) (y1 ++ y :: y2) err
  = min_fun (a :: b :: xs) (v1 ++ v2) (y1 ++ y2) err.
Proof.
  intros Hl Hnan.
  destruct (le_lt_dec (length v2) (length y2)) as [Hle | Hlt].
  - rewrite !min_fun_sum by (rewrite !length_app; simpl; lia).
    unfold q4_terms.
    rewrite !combine_app_same by exact Hl.
    cbn [combine]. rewrite !map_app. cbn [map fst snd].
    rewrite !nansum_filter, !filter_app. cbn [filter].
    assert (E : q4_term a b v y = NaN).
    { destruct Hnan as [H | H]; [destruct v | destruct y];
        try discriminate;
        [apply q4_term_nan_velocity | apply q4_term_nan_height]. }
    rewrite E. reflexivity.
  - rewrite !min_fun_short_heights by (rewrite !length_app; simpl; lia).
    reflexivity.
Qed.

Lemma min_fun_passes_over_nan_observation_witness :
  min_fun [Fin 1; Fin 1] ([Fin 1] ++ Fin 1 :: []) ([Fin 0] ++ NaN :: []) []
  = min_fun [Fin 1; Fin 1] ([Fin 1] ++ []) ([Fin 0] ++ []) [].
Proof.
  apply (min_fun_passes_over_nan_observation
           (Fin 1) (Fin 1) (Fin 1) NaN [] [Fin 1] [] [Fin 0] [] []).
  - reflexivity.
  - right. reflexivity.
Defined.

(* ===================================================================== *)
(** * Further properties: the fitted curve                                 *)
(* ===================================================================== *)

(** The power series of [Ein] without its leading factor [x]. *)
Definition Ein_series (x : R) : R :=
  proj1_sig (Alembert_C3 ExpIntegral.Ein_coef x ExpIntegral.Ein_coef_neq
               ExpIntegral.Ein_coef_ratio_cv).

Lemma Ein_series_cv (x : R) :
  Un_cv (fun N => sum_f_R0 (fun n => ExpIntegral.Ein_coef n * x ^ n) N)
        (Ein_series x).
Proof.
  unfold Ein_series.
  destruct (Alembert_C3 ExpIntegral.Ein_coef x ExpIntegral.Ein_coef_neq
              ExpIntegral.Ein_coef_ratio_cv) as [l Hl].
  exact Hl.
Qed.

Lemma Ein_series_le (x y : R) : 0 <= x <= y -> Ein_series x <= Ein_series y.
Proof.
  intros Hxy.
  apply (@Rle_cv_lim
           (fun N => sum_f_R0 (fun n => ExpIntegral.Ein_coef n * x ^ n) N)
           (fun N => sum_f_R0 (fun n => ExpIntegral.Ein_coef n * y ^ n) N)
           (Ein_series x) (Ein_series y)).
  - intros N. apply sum_Rle. intros n _.
    apply Rmult_le_compat_l.
    + apply Rlt_le, ExpIntegral.Ein_coef_pos.
    + apply pow_incr. exact Hxy.
  - apply Ein_series_cv.
  - apply Ein_series_cv.
Qed.

Lemma Ein_series_nonneg (x : R) : 0 <= x -> 0 <= Ein_series x.
Proof.
  intros Hx.
  apply (@Rle_cv_lim (fun _ => 0)
           (fun N => sum_f_R0 (fun n => ExpIntegral.Ein_coef n * x ^ n) N)
           0 (Ein_series x)).
  - intros N. apply cond_pos_sum. intros n.
    apply Rmult_le_pos.
    + apply Rlt_le, ExpIntegral.Ein_coef_pos.
    + apply pow_le. exact Hx.
  - intros eps Heps. exists 0%nat. intros n _.
    unfold R_dist. rewrite Rminus_diag, Rabs_R0. exact Heps.
  - apply Ein_series_cv.
Qed.

Lemma Ein_le (x y : R) : 0 <= x <= y -> ExpIntegral.Ein x <= ExpIntegral.Ein y.
Proof.
  intros Hxy. change (x * Ein_series x <= y * Ein_series y).
  pose proof (Ein_series_le x y Hxy).
  pose proof (Ein_series_nonneg x (proj1 Hxy)).
  apply Rmult_le_compat; lra.
Qed.

(** The exponential integral increases on the positive reals. *)
Lemma Ei_increasing (s t : R) :
  0 < s -> s < t -> ExpIntegral.Ei s < ExpIntegral.Ei t.
Proof.
  intros Hs Hst. unfold ExpIntegral.Ei.
  rewrite !Rabs_pos_eq by lra.
  pose proof (ln_increasing s t Hs Hst).
  pose proof (Ein_le s t). lra.
Qed.

(** The deviation that [min_fun] squares, on finite arguments. *)
Definition deviation (alpha beta v y : R) : R :=
  2 * alpha * exp (- y)
  - (ExpIntegral.Ei beta - ExpIntegral.Ei (beta * (v * v))) * exp (- beta).

Lemma q4_term_finite (alpha beta v y : R) :
  beta <> 0 -> v <> 0 ->
  q4_term (Fin alpha) (Fin beta) (Fin v) (Fin y)
  = Fin (deviation alpha beta v y * deviation alpha beta v y).
Proof.
  intros Hb Hv.
  assert (Hbv : beta * (v * v) <> 0).
  { apply Rmult_integral_contrapositive_currified; [exact Hb|].
    apply Rmult_integral_contrapositive_currified; exact Hv. }
  unfold q4_term, fsq, fsub. cbn [fmul fneg fexp fexpi].
  rewrite (Reqb_false _ _ Hb), (Reqb_false _ _ Hbv).
  cbn [fneg fadd fmul]. reflexivity.
Qed.

(** The height of the curve at a velocity where the two exponential
    integrals differ by something positive. *)
Definition curve_height (alpha beta v : R) : R :=
  ln alpha + beta
  - ln ((ExpIntegral.Ei beta - ExpIntegral.Ei (beta * (v * v))) / 2).

Lemma fun_curve_finite (alpha beta v : R) :
  0 < alpha -> beta <> 0 -> v <> 0 ->
  0 < ExpIntegral.Ei beta - ExpIntegral.Ei (beta * (v * v)) ->
  fun_curve (Fin alpha) (Fin beta) (Fin v) = Fin (curve_height alpha beta v).
Proof.
  intros Ha Hb Hv Hd.
  assert (Hbv : beta * (v * v) <> 0).
  { apply Rmult_integral_contrapositive_currified; [exact Hb|].
    apply Rmult_integral_contrapositive_currified; exact Hv. }
  unfold fun_curve, fsq, fsub. cbn [fmul flog fexpi].
  rewrite (Rltb_true 0 alpha Ha), (Reqb_false _ _ Hb), (Reqb_false _ _ Hbv).
  cbn [fneg fadd]. rewrite fdiv_fin by lra. cbn [flog].
  rewrite Rltb_true by (unfold Rminus in Hd; lra).
  reflexivity.
Qed.

(** The deviation vanishes on the curve and nowhere else. *)
Lemma deviation_zero_iff (alpha beta v y : R) :
  0 < alpha ->
  0 < ExpIntegral.Ei beta - ExpIntegral.Ei (beta * (v * v)) ->
  deviation alpha beta v y = 0 <-> curve_height alpha beta v = y.
Proof.
  intros Ha Hd. unfold deviation, curve_height.
  set (D := ExpIntegral.Ei beta - ExpIntegral.Ei (beta * (v * v))) in *.
  assert (Hu : 2 * alpha * exp (- (ln alpha + beta - ln (D / 2)))
               = D * exp (- beta)).
  { replace (- (ln alpha + beta - ln (D / 2)))
      with (ln (D / 2) + (- ln alpha + - beta)) by ring.
    rewrite !exp_plus, exp_ln by lra.
    rewrite exp_Ropp, exp_ln by lra. field. lra. }
  split.
  - intros H.
    assert (E : exp (- y) = exp (- (ln alpha + beta - ln (D / 2)))).
    { apply (Rmult_eq_reg_l (2 * alpha)); [|lra]. rewrite Hu. lra. }
    apply exp_inv in E. lra.
  - intros <-. rewrite Hu. ring.
Qed.

(** The sum of a list of reals. *)
Definition Rsum (l : list R) : R := fold_right Rplus 0 l.

Lemma fold_fadd_fin (rs : list R) (a : R) :
  fold_left fadd (map Fin rs) (Fin a) = Fin (a + Rsum rs).
Proof.
  revert a. induction rs as [|r rs IH]; intros a; cbn [map fold_left Rsum fold_right].
  - f_equal. lra.
  - cbn [fadd]. rewrite IH. f_equal. unfold Rsum. lra.
Qed.

Lemma fsum_fin (rs : list R) : fsum (map Fin rs) = Fin (Rsum rs).
Proof. unfold fsum. rewrite fold_fadd_fin. f_equal. lra. Qed.

Lemma nansum_fin (rs : list R) : nansum (map Fin rs) = Fin (Rsum rs).
Proof.
  rewrite nansum_no_nan; [apply fsum_fin|].
  apply Forall_forall. intros x Hx. apply in_map_iff in Hx.
  destruct Hx as [r [<- _]]. reflexivity.
Qed.

Lemma Rsum_nonneg (rs : list R) : Forall (fun r => 0 <= r) rs -> 0 <= Rsum rs.
Proof.
  induction 1 as [|r rs Hr _ IH]; cbn [Rsum fold_right]; [lra|].
  unfold Rsum in IH. lra.
Qed.

Lemma Rsum_zero_iff (rs : list R) :
  Forall (fun r => 0 <= r) rs ->
  Rsum rs = 0 <-> Forall (fun r => r = 0) rs.
Proof.
  induction 1 as [|r rs Hr Hrs IH]; cbn [Rsum fold_right].
  - split; [constructor | reflexivity].
  - pose proof (Rsum_nonneg rs Hrs) as Hs. unfold Rsum in *. split.
    + intros H. constructor; [lra|]. apply IH. lra.
    + intros H. inversion H as [|? ? H1 H2]; subst.
      apply IH in H2. lra.
Qed.

(** X6.  For [alpha > 0], [beta > 0] and observations with a normalised
    velocity strictly between 0 and 1, [min_fun] returns the residual 0
    exactly when every observation lies on the fitted curve [fun] of
    Section 1.3. *)
Theorem zero_residual_iff_on_curve
    (alpha beta : R) (obs : list (R * R)) (err : list fl) :
  0 < alpha -> 0 < beta ->
  Forall (fun o => 0 < fst o < 1) obs ->
  min_fun [Fin alpha; Fin beta]
          (map (fun o => Fin (fst o)) obs) (map (fun o => Fin (snd o)) obs) err
  = Ok (Fin 0)
  <-> Forall (fun o => fun_curve (Fin alpha) (Fin beta) (Fin (fst o))
                       = Fin (snd o)) obs.
Proof.
  intros Ha Hb Hv.
  assert (Hd : forall o, In o obs ->
             0 < ExpIntegral.Ei beta - ExpIntegral.Ei (beta * (fst o * fst o))).
  { intros o Ho. rewrite Forall_forall in Hv. specialize (Hv o Ho).
    assert (S1 : 0 < fst o * fst o < 1) by nra.
    assert (0 < beta * (fst o * fst o)) by (apply Rmult_lt_0_compat; lra).
    assert (beta * (fst o * fst o) < beta * 1)
      by (apply Rmult_lt_compat_l; lra).
    pose proof (Ei_increasing (beta * (fst o * fst o)) beta). lra. }
  rewrite min_fun_sum by (rewrite !length_map; lia).
  assert (T : q4_terms (Fin alpha) (Fin beta)
                (map (fun o => Fin (fst o)) obs)
                (map (fun o => Fin (snd o)) obs)
              = map Fin (map (fun o =>
                    deviation alpha beta (fst o) (snd o)
                    * deviation alpha beta (fst o) (snd o)) obs)).
  { unfold q4_terms. clear Hd.
    induction Hv as [|o obs Ho _ IH]; cbn [map combine fst snd];
      [reflexivity|].
    rewrite q4_term_finite by lra. f_equal. exact IH. }
  rewrite T, nansum_fin. split.
  - intros [= E]. apply Rsum_zero_iff in E.
    + rewrite Forall_map in E. rewrite Forall_forall in E |- *.
      intros o Ho. specialize (E o Ho). rewrite Forall_forall in Hv.
      specialize (Hv o Ho).
      rewrite fun_curve_finite by (try lra; apply Hd; exact Ho).
      f_equal. apply deviation_zero_iff; [exact Ha | apply Hd; exact Ho |].
      nra.
    + rewrite Forall_map. apply Forall_forall. intros o _. nra.
  - intros H. do 2 f_equal. apply Rsum_zero_iff.
    + rewrite Forall_map. apply Forall_forall. intros o _. nra.
    + rewrite Forall_map. rewrite Forall_forall in H |- *.
      intros o Ho. specialize (H o Ho). rewrite Forall_forall in Hv.
      specialize (Hv o Ho).
      rewrite fun_curve_finite in H by (try lra; apply Hd; exact Ho).
      injection H as H.
      apply (deviation_zero_iff alpha beta (fst o) (snd o) Ha (Hd o Ho)) in H.
      rewrite H. ring.
Qed.

Lemma Ei_gap_positive (beta v : R) :
  0 < beta -> 0 < v < 1 ->
  0 < ExpIntegral.Ei beta - ExpIntegral.Ei (beta * (v * v)).
Proof.
  intros Hb Hv.
  assert (S1 : 0 < v * v < 1) by nra.
  assert (0 < beta * (v * v)) by (apply Rmult_lt_0_compat; lra).
  assert (beta * (v * v) < beta * 1) by (apply Rmult_lt_compat_l; lra).
  pose proof (Ei_increasing (beta * (v * v)) beta). lra.
Qed.

Lemma zero_residual_iff_on_curve_witness :
  min_fun [Fin 1; Fin 1] [Fin (1 / 2)] [Fin (curve_height 1 1 (1 / 2))] []
  = Ok (Fin 0).
Proof.
  assert (Ha : 0 < 1) by lra.
  assert (Hv : Forall (fun o : R * R => 0 < fst o < 1)
                 [(1 / 2, curve_height 1 1 (1 / 2))])
    by (repeat constructor; simpl; lra).
  apply (proj2 (zero_residual_iff_on_curve
                  1 1 [(1 / 2, curve_height 1 1 (1 / 2))] [] Ha Ha Hv)).
  repeat constructor. cbn [fst snd].
  apply fun_curve_finite; try lra.
  apply Ei_gap_positive; lra.
Defined.

(** X7.  Where the fitted curve [fun] is a number, for [alpha > 0],
    [beta > 0] and a velocity [v >= 0], in exact arithmetic: it is [-inf]
    at [v = 0], a finite height for [0 < v < 1], [+inf] at [v = 1] and
    [nan] beyond.  (Exact arithmetic has no underflow and no overflow: in
    binary64 a velocity so small that [v**2] is zero gives [-inf] as
    [v = 0] does, and [expi] is [+inf] from an argument of about 710
    on.) *)
Theorem fun_curve_domain (alpha beta v : R) :
  0 < alpha -> 0 < beta -> 0 <= v ->
  fun_curve (Fin alpha) (Fin beta) (Fin v)
  = if Reqb v 0 then NInf
    else if Rltb v 1 then Fin (curve_height alpha beta v)
    else if Reqb v 1 then PInf
    else NaN.
Proof.
  intros Ha Hb Hv.
  destruct (Reqb_spec v 0) as [-> | Hv0].
  { unfold fun_curve, fsq, fsub. cbn [fmul flog fexpi].
    rewrite (Rltb_true 0 alpha Ha), (Reqb_false beta 0) by lra.
    rewrite (Reqb_true (beta * (0 * 0)) 0) by ring.
    cbn [fneg fadd fdiv flog]. rewrite (Rltb_false 2 0) by lra.
    reflexivity. }
  destruct (Rltb_spec v 1) as [Hv1 | Hv1].
  { apply fun_curve_finite; try lra. apply Ei_gap_positive; lra. }
  assert (Hbv : beta * (v * v) <> 0).
  { apply Rmult_integral_contrapositive_currified; [lra|].
    apply Rmult_integral_contrapositive_currified; exact Hv0. }
  unfold fun_curve, fsq, fsub. cbn [fmul flog fexpi].
  rewrite (Rltb_true 0 alpha Ha), (Reqb_false beta 0), (Reqb_false _ _ Hbv)
    by lra.
  cbn [fneg fadd]. rewrite fdiv_fin by lra. cbn [flog].
  destruct (Reqb_spec v 1) as [-> | Hv1'].
  - replace (beta * (1 * 1)) with beta by ring.
    rewrite Rltb_false, Reqb_true by lra. reflexivity.
  - assert (S1 : 1 < v * v) by nra.
    assert (beta * 1 < beta * (v * v)) by (apply Rmult_lt_compat_l; lra).
    pose proof (Ei_increasing beta (beta * (v * v))).
    rewrite Rltb_false, Reqb_false by lra. reflexivity.
Qed.

Lemma fun_curve_domain_witness :
  fun_curve (Fin 1) (Fin 1) (Fin (1 / 2)) = Fin (curve_height 1 1 (1 / 2)).
Proof.
  assert (H1 : 0 < 1) by lra. assert (H2 : 0 <= 1 / 2) by lra.
  pose proof (fun_curve_domain 1 1 (1 / 2) H1 H1 H2) as W.
  rewrite (Reqb_false (1 / 2) 0), (Rltb_true (1 / 2) 1) in W by lra.
  exact W.
Defined.

(* ===================================================================== *)
(** * Further properties: the cell of Section 1.1                          *)
(* ===================================================================== *)

(** X8.  A row whose velocity is [nan] is removed, as the comment of the
    selection loop announces: the cell ends as it does without the row,
    and no [nan] is left in [vel]. *)
Theorem nan_velocity_is_removed
    (before after : list row) (o : row) (v0_in : option fl) :
  isnan (fst o) = true ->
  section_1_1 (before ++ o :: after) v0_in
  = section_1_1 (before ++ after) v0_in
  /\ Forall (fun v => isnan v = false)
       (vel (fst (section_1_1 (before ++ o :: after) v0_in))).
Proof.
  intros Ho.
  assert (F : filter kept (before ++ o :: after)
              = filter kept (before ++ after)).
  { rewrite !filter_app. cbn [filter]. unfold kept at 2.
    destruct (fst o); try discriminate. reflexivity. }
  split.
  - rewrite !section_1_1_filter, F. reflexivity.
  - rewrite section_1_1_filter. cbv zeta.
    assert (K := kept_velocities (before ++ o :: after)).
    destruct (getitem _ 0); cbn [fst vel];
      (eapply Forall_impl; [|exact K]); intros v Hv;
      apply greater_than_one_not_nan; exact Hv.
Qed.

Lemma nan_velocity_is_removed_witness :
  section_1_1 ([] ++ (NaN, Fin 9) :: [(Fin 2, Fin 0)]) None
  = ({| vel := [Fin 2]; alt := [Fin 0]; v0 := Fin 2;
        Vvalues := [Fin 1]; h0 := Some (Fin 7.160);
        Yvalues := Some [Fin 0] |}, None).
Proof.
  pose proof (nan_velocity_is_removed
                [] [(Fin 2, Fin 0)] (NaN, Fin 9) None eq_refl) as W.
  destruct W as [W _].
  exact (eq_trans W section_1_1_two_rows).
Defined.

(** The same table with its heights in kilometres instead of metres. *)
Definition in_km (data : list row) : list row :=
  map (fun r => (fst r, fdiv (snd r) (Fin 1000))) data.

Lemma filter_in_km (data : list row) :
  filter kept (in_km data) = in_km (filter kept data).
Proof.
  unfold in_km. induction data as [|[v h] data IH]; cbn [map filter];
    [reflexivity|].
  change (kept (fst (v, h), fdiv (snd (v, h)) (Fin 1000))) with (kept (v, h)).
  destruct (kept (v, h)); cbn [map]; rewrite IH; reflexivity.
Qed.

Lemma km_then_scale (a : fl) :
  fdiv (fdiv a (Fin 1000)) (Fin 7.160) = fdiv a (Fin 7160).
Proof. destruct a; fl_eval; try reflexivity. f_equal. lra. Qed.

(** X9.  The unit of the heights does not matter: when the first height
    kept is at least 1000 m and below 1000 km, the cell makes the same
    [Yvalues], [Vvalues] and [v0] of the table in kilometres as of the
    table in metres, with the scale height 7.160 for the one and 7160
    for the other. *)
Theorem heights_in_km_or_m
    (data : list row) (v0_in : option fl) {g : normalised} {h : R} :
  section_1_1 data v0_in = (g, None) ->
  getitem (alt g) 0 = Ok (Fin h) ->
  1000 <= h < 1000000 ->
  let km := section_1_1 (in_km data) v0_in in
  snd km = None
  /\ h0 g = Some (Fin 7160)
  /\ h0 (fst km) = Some (Fin 7.160)
  /\ Yvalues (fst km) = Yvalues g
  /\ Vvalues (fst km) = Vvalues g
  /\ v0 (fst km) = v0 g.
Proof.
  rewrite !section_1_1_filter, filter_in_km. cbv zeta.
  assert (E1 : map fst (in_km (filter kept data)) = map fst (filter kept data)).
  { unfold in_km. rewrite map_map. reflexivity. }
  assert (E2 : map snd (in_km (filter kept data))
               = map (fun a => fdiv a (Fin 1000)) (map snd (filter kept data))).
  { unfold in_km. rewrite !map_map. reflexivity. }
  rewrite E1, E2, (getitem_map (fun a => fdiv a (Fin 1000))).
  destruct (getitem (map snd (filter kept data)) 0) as [alt0|e] eqn:E0;
    [|discriminate].
  cbv zeta. intros Hg. injection Hg as <-.
  cbn [alt]. rewrite E0. intros [= ->] Hh.
  cbn [bind]. rewrite fdiv_fin by lra. cbn [flt].
  rewrite (Rltb_true (h / 1000) 1000), (Rltb_false h 1000) by lra.
  cbn [fst snd h0 Yvalues Vvalues v0].
  repeat split. f_equal. rewrite map_map.
  apply map_ext. intros a. apply km_then_scale.
Qed.

Lemma heights_in_km_or_m_witness :
  Yvalues (fst (section_1_1 (in_km [(Fin 2, Fin 7160)]) None))
  = Some [Fin 1].
Proof.
  assert (S : section_1_1 [(Fin 2, Fin 7160)] None
              = ({| vel := [Fin 2]; alt := [Fin 7160]; v0 := Fin 2;
                    Vvalues := [Fin 1]; h0 := Some (Fin 7160);
                    Yvalues := Some [Fin 1] |}, None)).
  { unfold section_1_1. cbn [select_rows]. unfold fgt. fl_eval.
    unfold nanmean, nansum, fsum. fl_eval.
    replace ((0 + 2) / 1) with 2 by lra.
    replace (2 / 2) with 1 by lra.
    replace (7160 / 7160) with 1 by lra.
    reflexivity. }
  assert (Hh : 1000 <= 7160 < 1000000) by lra.
  destruct (heights_in_km_or_m [(Fin 2, Fin 7160)] None (h := 7160)
              S eq_refl Hh) as (_ & _ & _ & HY & _).
  exact HY.
Defined.

(** The real number that a finite value carries. *)
Definition to_real (x : fl) : R :=
  match x with
  | Fin r => r
  | _ => 0
  end.

Lemma finite_list (l : list fl) :
  Forall (fun x => isfinite x = true) l -> l = map Fin (map to_real l).
Proof.
  induction 1 as [|x l Hx _ IH]; cbn [map]; [reflexivity|].
  destruct x; try discriminate. cbn [to_real]. f_equal. exact IH.
Qed.

Lemma Rsum_scaled (c : R) (rs : list R) :
  Rsum (map (fun r => r / c) rs) = Rsum rs / c.
Proof.
  induction rs as [|r rs IH]; cbn [map Rsum fold_right].
  - unfold Rdiv. ring.
  - unfold Rsum in IH. rewrite IH. unfold Rdiv. ring.
Qed.

Lemma Rsum_above_count (rs : list R) :
  Forall (fun r => 1 < r) rs -> rs <> [] -> INR (length rs) < Rsum rs.
Proof.
  induction 1 as [|r rs Hr Hrs IH]; intros Hne; [congruence|].
  cbn [Rsum fold_right]. rewrite length_cons, S_INR.
  destruct rs as [|r' rs'].
  - cbn. lra.
  - assert (INR (length (r' :: rs')) < Rsum (r' :: rs'))
      by (apply IH; discriminate).
    unfold Rsum in *. lra.
Qed.

Lemma firstn_map_fin (n : nat) (rs : list R) :
  firstn n (map Fin rs) = map Fin (firstn n rs).
Proof. apply firstn_map. Qed.

(** The velocities that the selection loop keeps from a table of finite
    velocities: finite, and above 1. *)
Lemma kept_finite_velocities (data : list row) :
  Forall (fun r => isfinite (fst r) = true) data ->
  exists rs,
    map fst (filter kept data) = map Fin rs /\ Forall (fun r => 1 < r) rs.
Proof.
  intros H. exists (map to_real (map fst (filter kept data))). split.
  - apply finite_list. apply Forall_forall. intros v Hv.
    apply in_map_iff in Hv. destruct Hv as [r [<- Hr]].
    apply filter_In in Hr. rewrite Forall_forall in H. apply H, Hr.
  - rewrite !Forall_map. apply Forall_forall. intros r Hr.
    apply filter_In in Hr. destruct Hr as [Hin Hk].
    rewrite Forall_forall in H. specialize (H r Hin).
    unfold kept, fgt in Hk. destruct (fst r); try discriminate.
    cbn [to_real]. cbn [flt] in Hk.
    destruct (Rltb_spec 1 r0); [assumption | discriminate].
Qed.

(** The reference velocity computed from finite velocities above 1. *)
Lemma approx_v0_finite (rs : list R) :
  Forall (fun r => 1 < r) rs -> rs <> [] ->
  approx_v0 None (map Fin rs)
  = Fin (Rsum (firstn 10 rs) / INR (length (firstn 10 rs)))
  /\ 1 < Rsum (firstn 10 rs) / INR (length (firstn 10 rs)).
Proof.
  intros H Hne. cbn [approx_v0].
  assert (Hf : Forall (fun r => 1 < r) (firstn 10 rs)).
  { apply Forall_forall. intros r Hr. rewrite Forall_forall in H. apply H.
    rewrite <- (firstn_skipn 10 rs). apply in_or_app. left. exact Hr. }
  assert (Hfne : firstn 10 rs <> []) by (destruct rs; [congruence | discriminate]).
  pose proof (Rsum_above_count _ Hf Hfne) as Hs.
  assert (Hk : 0 < INR (length (firstn 10 rs))).
  { apply lt_0_INR. destruct (firstn 10 rs); [congruence | simpl; lia]. }
  split.
  - rewrite firstn_map_fin. unfold nanmean. rewrite nansum_fin.
    replace (filter notnan (map Fin (firstn 10 rs)))
      with (map Fin (firstn 10 rs)).
    + rewrite length_map. apply fdiv_fin. lra.
    + symmetry. apply forallb_filter_id. apply forallb_forall.
      intros x Hx. apply in_map_iff in Hx. destruct Hx as [r [<- _]].
      reflexivity.
  - apply (Rmult_lt_reg_r (INR (length (firstn 10 rs)))); [exact Hk|].
    unfold Rdiv. rewrite Rmult_assoc, Rinv_l by lra. lra.
Qed.

(** X10.  On a table of finite velocities and with no reference velocity
    supplied, the normalised velocities of the first ten observations
    kept have the mean 1. *)
Theorem normalised_head_has_mean_one (data : list row) {g : normalised} :
  Forall (fun r => isfinite (fst r) = true) data ->
  section_1_1 data None = (g, None) ->
  nanmean (firstn 10 (Vvalues g)) = Fin 1.
Proof.
  intros Hfin. rewrite section_1_1_filter. cbv zeta.
  destruct (kept_finite_velocities data Hfin) as (rs & Ers & Hrs).
  rewrite Ers.
  destruct (getitem (map snd (filter kept data)) 0) as [alt0|e] eqn:E0;
    [|discriminate].
  assert (Hne : rs <> []).
  { intros ->. assert (L : length (map fst (filter kept data)) = 0%nat)
      by (rewrite Ers; reflexivity).
    rewrite length_map in L.
    destruct (filter kept data); [discriminate E0 | discriminate L]. }
  destruct (approx_v0_finite rs Hrs Hne) as [-> Hv0].
  set (c := Rsum (firstn 10 rs) / INR (length (firstn 10 rs))) in *.
  intros Hg. injection Hg as <-. cbn [Vvalues].
  assert (Ev : map (fun v => fdiv v (Fin c)) (map Fin rs)
               = map Fin (map (fun r => r / c) rs)).
  { rewrite !map_map. apply map_ext. intros r. apply fdiv_fin. lra. }
  rewrite Ev, firstn_map_fin, firstn_map.
  unfold nanmean. rewrite nansum_fin, Rsum_scaled.
  replace (filter notnan (map Fin (map (fun r => r / c) (firstn 10 rs))))
    with (map Fin (map (fun r => r / c) (firstn 10 rs))).
  - rewrite !length_map.
    assert (Hk : 0 < INR (length (firstn 10 rs))).
    { apply lt_0_INR. destruct rs; [congruence | simpl; lia]. }
    rewrite fdiv_fin by lra. f_equal.
    assert (Hc : Rsum (firstn 10 rs) = c * INR (length (firstn 10 rs))).
    { subst c. field. lra. }
    rewrite Hc. field. split; lra.
  - symmetry. apply forallb_filter_id. apply forallb_forall.
    intros x Hx. apply in_map_iff in Hx. destruct Hx as [r [<- _]].
    reflexivity.
Qed.

Lemma section_1_1_two_speeds :
  section_1_1 [(Fin 2, Fin 0); (Fin 4, Fin 0)] None
  = ({| vel := [Fin 2; Fin 4]; alt := [Fin 0; Fin 0]; v0 := Fin 3;
        Vvalues := [Fin (2 / 3); Fin (4 / 3)]; h0 := Some (Fin 7.160);
        Yvalues := Some [Fin 0; Fin 0] |}, None).
Proof.
  unfold section_1_1. cbn [select_rows]. unfold fgt. fl_eval.
  unfold nanmean, nansum, fsum. fl_eval.
  replace ((0 + 2 + 4) / (1 + 1)) with 3 by lra.
  fl_eval.
  replace (0 / 7.160) with 0 by lra.
  reflexivity.
Qed.

Lemma normalised_head_has_mean_one_witness :
  nanmean (firstn 10 [Fin (2 / 3); Fin (4 / 3)]) = Fin 1.
Proof.
  assert (H : Forall (fun r : row => isfinite (fst r) = true)
                [(Fin 2, Fin 0); (Fin 4, Fin 0)])
    by (repeat constructor).
  exact (normalised_head_has_mean_one
           [(Fin 2, Fin 0); (Fin 4, Fin 0)] H section_1_1_two_speeds).
Defined.

(* ===================================================================== *)
(** * Further properties: the smoothing of Section 2.1                     *)
(* ===================================================================== *)

Lemma nth_map_fin (rs : list R) (k : nat) :
  (k < length rs)%nat -> nth k (map Fin rs) NaN = Fin (nth k rs 0).
Proof.
  intros H. transitivity (nth k (map Fin rs) (Fin 0)).
  - apply nth_indep. rewrite length_map. exact H.
  - apply (map_nth Fin).
Qed.

Lemma mean3_fin (a b c : R) :
  mean3 (Fin a) (Fin b) (Fin c) = Fin ((a + b + c) / 3).
Proof. unfold mean3. rewrite !fadd_fin. apply fdiv_fin. lra. Qed.

(** One pass over real numbers. *)
Definition smoothed_reals (rs : list R) : list R :=
  map (fun i => (nth i rs 0 + nth (i + 1) rs 0 + nth (i + 2) rs 0) / 3)
      (seq 0 (length rs - 2)).

Lemma length_smoothed_reals (rs : list R) :
  length (smoothed_reals rs) = (length rs - 2)%nat.
Proof. unfold smoothed_reals. rewrite length_map, length_seq. reflexivity. Qed.

Lemma nth_smoothed_reals (rs : list R) (i : nat) :
  (i < length rs - 2)%nat ->
  nth i (smoothed_reals rs) 0
  = (nth i rs 0 + nth (i + 1) rs 0 + nth (i + 2) rs 0) / 3.
Proof.
  intros H. unfold smoothed_reals.
  set (f := fun i => (nth i rs 0 + nth (i + 1) rs 0 + nth (i + 2) rs 0) / 3).
  transitivity (nth i (map f (seq 0 (length rs - 2))) (f 0%nat)).
  - apply nth_indep. rewrite length_map, length_seq. exact H.
  - rewrite (map_nth f), seq_nth by exact H. reflexivity.
Qed.

Lemma smoothed_fin (rs : list R) :
  smoothed (map Fin rs) = map Fin (smoothed_reals rs).
Proof.
  unfold smoothed, smoothed_reals. rewrite length_map, map_map.
  apply map_ext_in. intros i Hi. apply in_seq in Hi.
  rewrite !nth_map_fin by lia. apply mean3_fin.
Qed.

(** The weights 1, 2, 3, 2, 1 over 9, at the five entries from [i] on. *)
Definition kernel5 (rs : list R) (i : nat) : R :=
  (nth i rs 0 + 2 * nth (i + 1) rs 0 + 3 * nth (i + 2) rs 0
   + 2 * nth (i + 3) rs 0 + nth (i + 4) rs 0) / 9.

Lemma smoothed_twice (rs : list R) :
  smoothed_reals (smoothed_reals rs)
  = map (kernel5 rs) (seq 0 (length rs - 4)).
Proof.
  unfold smoothed_reals at 1. rewrite length_smoothed_reals.
  replace (length rs - 2 - 2)%nat with (length rs - 4)%nat by lia.
  apply map_ext_in. intros i Hi. apply in_seq in Hi.
  rewrite !nth_smoothed_reals by lia. unfold kernel5.
  replace (i + 1 + 1)%nat with (i + 2)%nat by lia.
  replace (i + 1 + 2)%nat with (i + 3)%nat by lia.
  replace (i + 2 + 1)%nat with (i + 3)%nat by lia.
  replace (i + 2 + 2)%nat with (i + 4)%nat by lia.
  field.
Qed.

Lemma section_2_1_run (vel alt : list fl) (v0_in : option fl) :
  length alt = length vel ->
  section_2_1 vel alt v0_in
  = Ok (smoothed (smoothed vel),
        map (fun i => nth (i + 2) alt NaN) (seq 0 (length vel - 4)),
        approx_v0 v0_in vel).
Proof.
  intros H. unfold section_2_1.
  rewrite (smooth_pass_ok vel alt H). cbn [bind].
  rewrite smooth_pass_ok by (rewrite length_smoothed, length_middle; reflexivity).
  cbn [bind]. rewrite middle_middle. reflexivity.
Qed.

(** X11.  On finite velocities, the two passes of Section 2.1 together
    are one weighted mean over five neighbours: entry [i] of
    [vel_smooth] is
    [(vel[i] + 2 vel[i+1] + 3 vel[i+2] + 2 vel[i+3] + vel[i+4]) / 9],
    and it is paired with the height in the middle of the five,
    [alt[i+2]]. *)
Theorem two_passes_are_a_five_point_mean (rs : list R) (alt : list fl)
    (v0_in : option fl) :
  length alt = length rs ->
  section_2_1 (map Fin rs) alt v0_in
  = Ok (map (fun i => Fin (kernel5 rs i)) (seq 0 (length rs - 4)),
        map (fun i => nth (i + 2) alt NaN) (seq 0 (length rs - 4)),
        approx_v0 v0_in (map Fin rs)).
Proof.
  intros H. rewrite section_2_1_run by (rewrite length_map; exact H).
  rewrite !smoothed_fin, smoothed_twice, length_map, map_map. reflexivity.
Qed.

Lemma two_passes_are_a_five_point_mean_witness :
  section_2_1 (map Fin [9; 0; 0; 0; 0; 18])
    [Fin 6; Fin 5; Fin 4; Fin 3; Fin 2; Fin 1] (Some (Fin 9))
  = Ok (map (fun i => Fin (kernel5 [9; 0; 0; 0; 0; 18] i)) (seq 0 2),
        [Fin 4; Fin 3], Fin 9).
Proof.
  exact (two_passes_are_a_five_point_mean [9; 0; 0; 0; 0; 18]
           [Fin 6; Fin 5; Fin 4; Fin 3; Fin 2; Fin 1] (Some (Fin 9)) eq_refl).
Defined.

Lemma nth_in_range (lo hi : R) (rs : list R) (k : nat) :
  Forall (fun r => lo <= r <= hi) rs -> (k < length rs)%nat ->
  lo <= nth k rs 0 <= hi.
Proof.
  intros H Hk. rewrite Forall_forall in H. apply H. apply nth_In. exact Hk.
Qed.

(** X12.  In exact arithmetic smoothing never leaves the range of the
    data: when every velocity lies between [lo] and [hi], so does every
    entry of [vel_smooth].  (In binary64 the sum of three velocities is
    rounded before it is divided, and a mean can leave the range by a
    rounding: see [mean_of_equal_velocities_rounds_below].) *)
Theorem smoothing_stays_in_range (lo hi : R) (rs : list R) (alt : list fl)
    (v0_in : option fl) :
  length alt = length rs ->
  Forall (fun r => lo <= r <= hi) rs ->
  exists vel_smooth alt_smooth v0,
    section_2_1 (map Fin rs) alt v0_in = Ok (vel_smooth, alt_smooth, v0)
    /\ Forall (fun x => within x (Fin lo, Fin hi)) vel_smooth.
Proof.
  intros H Hr. do 3 eexists. split.
  - rewrite section_2_1_run by (rewrite length_map; exact H).
    rewrite !smoothed_fin, smoothed_twice, length_map, map_map. reflexivity.
  - apply Forall_forall. intros x Hx. apply in_map_iff in Hx.
    destruct Hx as [i [<- Hi]]. apply in_seq in Hi.
    pose proof (nth_in_range lo hi rs i Hr ltac:(lia)) as H0.
    pose proof (nth_in_range lo hi rs (i + 1) Hr ltac:(lia)) as H1.
    pose proof (nth_in_range lo hi rs (i + 2) Hr ltac:(lia)) as H2.
    pose proof (nth_in_range lo hi rs (i + 3) Hr ltac:(lia)) as H3.
    pose proof (nth_in_range lo hi rs (i + 4) Hr ltac:(lia)) as H4.
    unfold within, kernel5. cbn [fst snd fle].
    split; apply Rleb_true; lra.
Qed.

Lemma smoothing_stays_in_range_witness :
  exists vel_smooth alt_smooth v0,
    section_2_1 (map Fin [9; 0; 0; 0; 0; 18])
      [Fin 6; Fin 5; Fin 4; Fin 3; Fin 2; Fin 1] (Some (Fin 9))
    = Ok (vel_smooth, alt_smooth, v0)
    /\ Forall (fun x => within x (Fin 0, Fin 18)) vel_smooth.
Proof.
  apply (smoothing_stays_in_range 0 18 [9; 0; 0; 0; 0; 18]
           [Fin 6; Fin 5; Fin 4; Fin 3; Fin 2; Fin 1] (Some (Fin 9)) eq_refl).
  repeat constructor; lra.
Defined.

Section Rounding_of_the_mean.
Import PrimFloat.

(** In binary64 the mean of three velocities [1.4] is
    [1.3999999999999997], below each of them. *)
Lemma mean_of_equal_velocities_rounds_below :
  PrimFloat.ltb (B64.mean3 1.4 1.4 1.4) 1.4 = true.
Proof. vm_compute. reflexivity. Qed.

End Rounding_of_the_mean.

(** X13.  Velocities that change by the same amount from each observation
    to the next pass through the smoothing unchanged: [vel_smooth] and
    [alt_smooth] are the observations themselves, without the first two
    and the last two. *)
Theorem smoothing_keeps_a_linear_trend (a b : R) (rs : list R)
    (alt : list fl) (v0_in : option fl) :
  length alt = length rs ->
  (forall i, (i < length rs)%nat -> nth i rs 0 = a + b * INR i) ->
  section_2_1 (map Fin rs) alt v0_in
  = Ok (map (fun i => nth (i + 2) (map Fin rs) NaN) (seq 0 (length rs - 4)),
        map (fun i => nth (i + 2) alt NaN) (seq 0 (length rs - 4)),
        approx_v0 v0_in (map Fin rs)).
Proof.
  intros H Hlin. rewrite section_2_1_run by (rewrite length_map; exact H).
  rewrite !smoothed_fin, smoothed_twice, length_map, map_map.
  do 3 f_equal. apply map_ext_in. intros i Hi. apply in_seq in Hi.
  rewrite nth_map_fin by lia. f_equal. unfold kernel5.
  rewrite !Hlin by lia. rewrite !plus_INR. cbn [INR]. field.
Qed.

Lemma smoothing_keeps_a_linear_trend_witness :
  section_2_1 (map Fin [5; 7; 9; 11; 13])
    [Fin 5; Fin 4; Fin 3; Fin 2; Fin 1] None
  = Ok (map (fun i => nth (i + 2) (map Fin [5; 7; 9; 11; 13]) NaN) (seq 0 1),
        [Fin 3], approx_v0 None (map Fin [5; 7; 9; 11; 13])).
Proof.
  apply (smoothing_keeps_a_linear_trend 5 2 [5; 7; 9; 11; 13]
           [Fin 5; Fin 4; Fin 3; Fin 2; Fin 1] None eq_refl).
  intros i Hi. cbn [length] in Hi.
  destruct i as [|[|[|[|[|i]]]]]; cbn [nth INR]; try lra; lia.
Defined.

(* ===================================================================== *)
(** * Further properties: Sections 2.1 and 2.2 in a row                    *)
(* ===================================================================== *)

Lemma smoothed_twice_short (vel : list fl) :
  (length vel <= 4)%nat -> smoothed (smoothed vel) = [].
Proof.
  intros H. apply length_zero_iff_nil. rewrite !length_smoothed. lia.
Qed.

(** X14.  With fewer than five observations the two smoothing passes
    leave none, and the fit of Section 2.2 stops on [IndexError] at
    [Yvalues[-1]], before the minimiser is called: whatever the
    minimiser does, the outcome is the same. *)
Theorem fit_with_v0_needs_five_observations (minimize : minimizer)
    (vel alt : list fl) (h0 v0 : fl) :
  length alt = length vel ->
  (length vel <= 4)%nat ->
  section_2_1 vel alt (Some v0) = Ok ([], [], v0)
  /\ sections_2_1_2_2 minimize vel alt h0 v0 = Raise IndexError.
Proof.
  intros H Hn.
  assert (E : section_2_1 vel alt (Some v0) = Ok ([], [], v0)).
  { rewrite (section_2_1_run vel alt (Some v0) H).
    rewrite (smoothed_twice_short vel Hn).
    replace (length vel - 4)%nat with 0%nat by lia. reflexivity. }
  split; [exact E|].
  unfold sections_2_1_2_2. rewrite E. reflexivity.
Qed.

Lemma fit_with_v0_needs_five_observations_witness :
  section_2_1 [Fin 4; Fin 3; Fin 2; Fin 2] [Fin 9; Fin 8; Fin 7; Fin 6]
    (Some (Fin 4)) = Ok ([], [], Fin 4)
  /\ sections_2_1_2_2 project_only [Fin 4; Fin 3; Fin 2; Fin 2]
       [Fin 9; Fin 8; Fin 7; Fin 6] (Fin 7.160) (Fin 4) = Raise IndexError.
Proof.
  apply (fit_with_v0_needs_five_observations project_only
           [Fin 4; Fin 3; Fin 2; Fin 2] [Fin 9; Fin 8; Fin 7; Fin 6]
           (Fin 7.160) (Fin 4) eq_refl).
  simpl. lia.
Defined.

Lemma getitem_last_seq (f : nat -> fl) (n : nat) :
  getitem (map f (seq 0 (S n))) (-1) = Ok (f n).
Proof.
  rewrite seq_S, map_app. cbn [map Nat.add]. apply getitem_last.
Qed.

(** X15.  With five observations or more, the fit of Section 2.2 takes
    its first guess of alpha from the height of the third observation
    from the end, [alt[-3]], the last one that the smoothing keeps:
    [alpha0 = exp(alt[-3] / h0) / (2 * 0.01)]. *)
Theorem fit_with_v0_starts_at_third_height_from_end
    (vel alt : list fl) (h0 v0 : fl) :
  length alt = length vel ->
  (5 <= length vel)%nat ->
  exists vel_smooth alt_smooth,
    section_2_1 vel alt (Some v0) = Ok (vel_smooth, alt_smooth, v0)
    /\ getitem alt (-3) = Ok (nth (length alt - 3) alt NaN)
    /\ Q4_min_v_x0 (map (fun j => fdiv j h0) alt_smooth) v0
       = Ok [fdiv (fexp (fdiv (nth (length alt - 3) alt NaN) h0))
                  (fmul (Fin 2) (Fin 0.01));
             Fin 0.01; fdiv v0 (Fin 1000)].
Proof.
  intros H Hn. do 2 eexists.
  split; [exact (section_2_1_run vel alt (Some v0) H)|].
  split.
  - unfold getitem, len.
    replace (-3 <? 0)%Z with true by reflexivity. cbv zeta.
    assert (E1 : (-3 + Z.of_nat (length alt) <? 0)%Z = false)
      by (apply Z.ltb_ge; lia).
    assert (E2 : (Z.of_nat (length alt) <=? -3 + Z.of_nat (length alt))%Z
                 = false) by (apply Z.leb_gt; lia).
    rewrite E1, E2. cbn [orb].
    replace (Z.to_nat (-3 + Z.of_nat (length alt))) with (length alt - 3)%nat
      by lia.
    rewrite (nth_error_nth' alt NaN) by lia. reflexivity.
  - unfold Q4_min_v_x0. rewrite map_map.
    replace (length vel - 4)%nat with (S (length vel - 5)) by lia.
    rewrite (getitem_last_seq (fun i => fdiv (nth (i + 2) alt NaN) h0)).
    cbn [bind]. replace (length vel - 5 + 2)%nat with (length alt - 3)%nat
      by lia.
    reflexivity.
Qed.

Lemma fit_with_v0_starts_at_third_height_from_end_witness :
  exists vel_smooth alt_smooth,
    section_2_1 [Fin 6; Fin 5; Fin 4; Fin 3; Fin 2]
      [Fin 9; Fin 8; Fin 7; Fin 6; Fin 5] (Some (Fin 6))
    = Ok (vel_smooth, alt_smooth, Fin 6)
    /\ getitem [Fin 9; Fin 8; Fin 7; Fin 6; Fin 5] (-3) = Ok (Fin 7)
    /\ Q4_min_v_x0 (map (fun j => fdiv j (Fin 7.160)) alt_smooth) (Fin 6)
       = Ok [fdiv (fexp (fdiv (Fin 7) (Fin 7.160))) (fmul (Fin 2) (Fin 0.01));
             Fin 0.01; fdiv (Fin 6) (Fin 1000)].
Proof.
  apply (fit_with_v0_starts_at_third_height_from_end
           [Fin 6; Fin 5; Fin 4; Fin 3; Fin 2]
           [Fin 9; Fin 8; Fin 7; Fin 6; Fin 5] (Fin 7.160) (Fin 6) eq_refl).
  simpl. lia.
Defined.

(* ===================================================================== *)
(** * Further properties: where the two estimators start                   *)
(* ===================================================================== *)

(** X16.  The first guess of neither estimator is clipped to the bounds
    that go with it.  On a finite last height [y], the start of [Q4_min]
    lies inside its bounds exactly when [0.02 <= exp(y) <= 2000], and the
    start of [Q4_min_v] exactly when [0.0002 <= exp(y) <= 20] and
    [V0 >= 0]. *)
Theorem start_inside_bounds (Y : list fl) (y V0 : R) :
  getitem Y (-1) = Ok (Fin y) ->
  (exists x0,
     Q4_min_x0 (Some Y) = Ok x0
     /\ (Forall2 within x0 Q4_min_bnds <-> 0.02 <= exp y <= 2000))
  /\ (exists x0,
        Q4_min_v_x0 Y (Fin V0) = Ok x0
        /\ (Forall2 within x0 (Q4_min_v_bnds (Fin V0))
            <-> 0.0002 <= exp y <= 20 /\ 0 <= V0)).
Proof.
  intros H. split; eexists; (split; [|]).
  - unfold Q4_min_x0. cbn [global bind]. rewrite H. cbn [bind]. reflexivity.
  - unfold Q4_min_bnds, Q4_min_xmin, Q4_min_xmax. cbn [combine fexp].
    rewrite fmul_fin, fdiv_fin by lra.
    rewrite Forall2_two, !within_fin. split.
    + intros [[H1 H2] _]. split; lra.
    + intros [H1 H2]. repeat split; lra.
  - unfold Q4_min_v_x0. rewrite H. cbn [bind]. reflexivity.
  - unfold Q4_min_v_bnds, Q4_min_v_xmin, Q4_min_v_xmax. cbn [combine fexp].
    rewrite !fmul_fin, !fdiv_fin by lra.
    rewrite Forall2_three, !within_fin. split.
    + intros ([H1 H2] & _ & [H3 H4]). repeat split; lra.
    + intros ([H1 H2] & H3). repeat split; lra.
Qed.

Lemma start_inside_bounds_witness :
  (exists x0,
     Q4_min_x0 (Some [Fin 4]) = Ok x0
     /\ (Forall2 within x0 Q4_min_bnds <-> 0.02 <= exp 4 <= 2000))
  /\ (exists x0,
        Q4_min_v_x0 [Fin 4] (Fin 15000) = Ok x0
        /\ (Forall2 within x0 (Q4_min_v_bnds (Fin 15000))
            <-> 0.0002 <= exp 4 <= 20 /\ 0 <= 15000)).
Proof.
  exact (start_inside_bounds [Fin 4] 4 15000 eq_refl).
Defined.

(* ===================================================================== *)
(** * Further properties: the unit of the velocities                       *)
(* ===================================================================== *)

Lemma Rltb_scaled (k r : R) : 0 < k -> Rltb 0 (r * k) = Rltb 0 r.
Proof.
  intros Hk. destruct (Rltb_spec 0 r) as [H|H].
  - apply Rltb_true. apply Rmult_lt_0_compat; assumption.
  - apply Rltb_false. intros H'. apply H.
    apply (Rmult_lt_reg_r k); [exact Hk|]. lra.
Qed.

Lemma Rltb_scaled_neg (k r : R) : 0 < k -> Rltb (r * k) 0 = Rltb r 0.
Proof.
  intros Hk. destruct (Rltb_spec r 0) as [H|H].
  - apply Rltb_true. replace 0 with (0 * k) by ring.
    apply Rmult_lt_compat_r; assumption.
  - apply Rltb_false. intros H'. apply H.
    apply (Rmult_lt_reg_r k); [exact Hk|]. lra.
Qed.

Lemma inf_times_pos (neg : bool) (k : R) :
  0 < k -> inf_times neg k = if neg then NInf else PInf.
Proof. intros Hk. unfold inf_times. rewrite Rltb_true by exact Hk. reflexivity. Qed.

(** [v*k / ((c*k) * 1000)] is [v / (c * 1000)] for a positive [k], also
    at zero, the infinities and [nan]. *)
Lemma fdiv_scaled (k : R) (v c : fl) :
  0 < k ->
  fdiv (fmul v (Fin k)) (fmul (fmul c (Fin k)) (Fin 1000))
  = fdiv v (fmul c (Fin 1000)).
Proof.
  intros Hk.
  assert (H1000 : 0 < 1000) by lra.
  destruct v as [r| | |], c as [s| | |]; cbn [fmul];
    rewrite ?(inf_times_pos _ k Hk); cbn [fmul];
    rewrite ?(inf_times_pos _ 1000 H1000); try reflexivity.
  - cbn [fdiv]. destruct (Req_dec s 0) as [->|Hs].
    + rewrite !Reqb_true by ring.
      rewrite (Rltb_scaled k r Hk), (Rltb_scaled_neg k r Hk). reflexivity.
    + assert (s * k * 1000 <> 0).
      { intros E. apply Hs.
        apply (Rmult_eq_reg_r (k * 1000)); [|lra]. lra. }
      rewrite !Reqb_false by (try assumption; lra).
      f_equal. field. split; [exact Hs | lra].
  - cbn [fdiv].
    replace (s * k * 1000) with ((s * 1000) * k) by ring.
    rewrite (Rltb_scaled_neg k (s * 1000) Hk). reflexivity.
  - cbn [fdiv].
    replace (s * k * 1000) with ((s * 1000) * k) by ring.
    rewrite (Rltb_scaled_neg k (s * 1000) Hk). reflexivity.
Qed.

(** X17.  The three-parameter objective does not depend on the unit of
    the velocities: multiplying every velocity and the velocity unknown
    [x[2]] by the same positive factor changes neither its value nor the
    exception it raises. *)
Theorem min_fun_v_unit_of_velocity (k : R) (a b c : fl)
    (xs velocities yvals err : list fl) :
  0 < k ->
  min_fun_v (a :: b :: fmul c (Fin k) :: xs)
    (map (fun v => fmul v (Fin k)) velocities) yvals err
  = min_fun_v (a :: b :: c :: xs) velocities yvals err.
Proof.
  intros Hk. unfold min_fun_v. rewrite len_map.
  rewrite (q4_loop_ext
             (vval_v (a :: b :: fmul c (Fin k) :: xs)
                     (map (fun v => fmul v (Fin k)) velocities))
             (vval_v (a :: b :: c :: xs) velocities)
             (a :: b :: fmul c (Fin k) :: xs) (a :: b :: c :: xs)).
  - reflexivity.
  - intros i. unfold vval_v. rewrite getitem_map.
    destruct (getitem velocities i); cbn [bind]; [|reflexivity].
    rewrite !getitem_2. cbn [bind]. f_equal. apply fdiv_scaled. exact Hk.
  - rewrite !getitem_0. reflexivity.
  - rewrite !getitem_1. reflexivity.
Qed.

Lemma min_fun_v_unit_of_velocity_witness :
  min_fun_v [Fin 50; Fin 1; fmul (Fin 15) (Fin 1000)]
    (map (fun v => fmul v (Fin 1000)) [Fin 14; Fin 12]) [Fin 4; Fin 3] []
  = min_fun_v [Fin 50; Fin 1; Fin 15] [Fin 14; Fin 12] [Fin 4; Fin 3] [].
Proof.
  apply (min_fun_v_unit_of_velocity 1000 (Fin 50) (Fin 1) (Fin 15) []
           [Fin 14; Fin 12] [Fin 4; Fin 3] []).
  lra.
Defined.

(* ===================================================================== *)
(** * Further properties: the boundary of the final mass                   *)
(* ===================================================================== *)

(** [m0] on positive sliders: [(0.5*cd*1.29*7160*A / rho^(2/3))^3]. *)
Definition m0_value (cd rho A : R) : R :=
  (0.5 * cd * 1.29 * 7160 * A / Rpower rho (2 / 3)) ^ 3.

Lemma m0_value_gt_0 (cd rho A : R) :
  0 < cd -> 0 < A -> 0 < m0_value cd rho A.
Proof.
  intros Hcd HA. unfold m0_value. apply pow_lt.
  apply Rdiv_lt_0_compat; [|apply exp_pos].
  apply Rmult_lt_0_compat; lra.
Qed.

Lemma pydiv_fin (a b : R) : b <> 0 -> pydiv (Fin a) (Fin b) = inr (Fin (a / b)).
Proof.
  intros Hb. unfold pydiv. rewrite Reqb_false by exact Hb.
  rewrite fdiv_fin by exact Hb. reflexivity.
Qed.

Lemma m0_finite (cd rho A : R) :
  0 < rho -> m0 (Fin cd) (Fin rho) (Fin A) = inr (Fin (m0_value cd rho A)).
Proof.
  intros Hrho. unfold m0, m0_value. cbn [fpow].
  rewrite (Rltb_true 0 rho Hrho).
  assert (HP : Rpower rho (2 / 3) <> 0)
    by (apply Rgt_not_eq; apply exp_pos).
  rewrite !fmul_fin. rewrite (pydiv_fin _ _ HP).
  unfold fcube. rewrite !fmul_fin. do 2 f_equal. ring.
Qed.

(** One ordinate of the black curve, for a positive [mf]. *)
Lemma f_boundary_finite (mf mu cd rho A x : R) :
  0 < cd -> 0 < rho -> 0 < A -> 0 < mf ->
  f_boundary (Fin mf) (Fin mu) (Fin cd) (Fin rho) (Fin A) [Fin x]
  = inr [flog (Fin ((mu - 1)
                    * (ln (mf / 1000 / m0_value cd rho A) + 3 * x)))].
Proof.
  intros Hcd Hrho HA Hmf. unfold f_boundary.
  rewrite (m0_finite cd rho A Hrho).
  pose proof (m0_value_gt_0 cd rho A Hcd HA) as Hm.
  rewrite fdiv_fin by lra. cbn [boundary].
  rewrite pydiv_fin by lra.
  assert (Hq : 0 < mf / 1000 / m0_value cd rho A).
  { apply Rdiv_lt_0_compat; lra. }
  cbn [flog]. rewrite (Rltb_true _ _ Hq).
  unfold fsub. cbn [fneg]. rewrite !fmul_fin, !fadd_fin, fmul_fin.
  reflexivity.
Qed.




(** [ln q + 3 ln s = t] says [q s^3 = exp t]. *)
Lemma ln_level (q s t : R) :
  0 < q -> 0 < s -> (ln q + 3 * ln s = t <-> q * s ^ 3 = exp t).
Proof.
  intros Hq Hs.
  assert (Hs3 : 0 < s ^ 3) by (apply pow_lt; exact Hs).
  assert (E : ln (q * s ^ 3) = ln q + 3 * ln s).
  { rewrite ln_mult by assumption. f_equal.
    replace (s ^ 3) with (s * (s * s)) by ring.
    rewrite !ln_mult by (try assumption; apply Rmult_lt_0_compat; assumption).
    ring. }
  split; intros H.
  - rewrite <- H, <- E. rewrite exp_ln; [reflexivity|].
    apply Rmult_lt_0_compat; assumption.
  - rewrite <- E, H. apply ln_exp.
Qed.

Lemma flog_is (z b : R) : 0 < b -> (flog (Fin z) = Fin (ln b) <-> z = b).
Proof.
  intros Hb. cbn [flog]. destruct (Rltb_spec 0 z) as [Hz|Hz].
  - split.
    + intros [= E]. apply ln_inv; assumption.
    + intros ->. reflexivity.
  - split.
    + destruct (Reqb z 0); discriminate.
    + intros ->. lra.
Qed.

(** X19.  The black curve of the mass cell is the line of equal final
    mass: for a fit with [alpha sin(slope) > 0] and [beta > 0], the red
    point [(ln(alpha sin(slope)), ln(beta))] lies on the curve drawn for
    the slider value [mf] exactly when the final mass that the cell
    prints is [mf / 1000] times [1 - Vvalues[-1]^2]. *)
Theorem boundary_is_line_of_equal_final_mass
    (mf mu cd rho A alpha beta slope vlast : R) (Vvalues : list fl) :
  0 < cd -> 0 < rho -> 0 < A -> 0 < mf -> mu < 1 ->
  0 < alpha * sin slope -> 0 < beta ->
  getitem Vvalues (-1) = Ok (Fin vlast) ->
  vlast ^ 2 <> 1 ->
  f_boundary (Fin mf) (Fin mu) (Fin cd) (Fin rho) (Fin A)
    [fst (f_point (Fin alpha) (Fin beta) (Fin slope))]
  = inr [snd (f_point (Fin alpha) (Fin beta) (Fin slope))]
  <-> m_txt (Fin alpha) (Fin beta) Vvalues (Fin slope) (Fin mu) (Fin cd)
        (Fin rho) (Fin A)
      = Ok (Fin (mf / 1000 * (1 - vlast ^ 2))).
Proof.
  intros Hcd Hrho HA Hmf Hmu Hs Hbeta Hlast Hv.
  pose proof (m0_value_gt_0 cd rho A Hcd HA) as Hm.
  assert (HP : 0 < Rpower rho (2 / 3)) by apply exp_pos.
  assert (Hq : 0 < mf / 1000 / m0_value cd rho A)
    by (apply Rdiv_lt_0_compat; lra).
  set (s := alpha * sin slope) in *.
  set (t := - beta / (1 - mu)).
  assert (Hs3 : 0 < s ^ 3) by (apply pow_lt; exact Hs).
  (* the curve *)
  assert (Curve :
    f_boundary (Fin mf) (Fin mu) (Fin cd) (Fin rho) (Fin A)
      [fst (f_point (Fin alpha) (Fin beta) (Fin slope))]
    = inr [snd (f_point (Fin alpha) (Fin beta) (Fin slope))]
    <-> mf / 1000 / m0_value cd rho A * s ^ 3 = exp t).
  { unfold f_point. cbn [fst snd fsin]. rewrite fmul_fin. fold s.
    cbn [flog]. rewrite (Rltb_true 0 s Hs), (Rltb_true 0 beta Hbeta).
    rewrite (f_boundary_finite mf mu cd rho A (ln s) Hcd Hrho HA Hmf).
    rewrite <- (ln_level _ s t Hq Hs).
    split.
    - intros [= E]. apply (flog_is _ beta Hbeta) in E.
      unfold t. apply (Rmult_eq_reg_l (mu - 1)); [|lra].
      rewrite E. field. lra.
    - intros E. do 2 f_equal. apply (flog_is _ beta Hbeta).
      rewrite E. unfold t. field. lra. }
  (* the mass *)
  assert (Mass :
    m_txt (Fin alpha) (Fin beta) Vvalues (Fin slope) (Fin mu) (Fin cd)
      (Fin rho) (Fin A)
    = Ok (Fin (m0_value cd rho A / s ^ 3 * exp t * (1 - vlast ^ 2)))).
  { rewrite (m_txt_finite alpha beta vlast slope mu cd rho A Vvalues
               Hlast Hrho) by (fold s; lra).
    fold s. rewrite fdiv_fin by lra. cbn [fexp]. rewrite !fmul_fin.
    do 2 f_equal. unfold m0_value, t. f_equal. f_equal.
    field. split; lra. }
  rewrite Curve, Mass. split.
  - intros E. do 2 f_equal. f_equal. rewrite <- E. field. split; lra.
  - intros [= E]. apply Rmult_eq_reg_r in E; [|lra].
    rewrite <- E. field. split; lra.
Qed.

Lemma boundary_is_line_of_equal_final_mass_witness :
  f_boundary (Fin 1000) (Fin 0) (Fin 1) (Fin 3500) (Fin 1.21)
    [fst (f_point (Fin 1) (Fin 1) (Fin (PI / 2)))]
  = inr [snd (f_point (Fin 1) (Fin 1) (Fin (PI / 2)))]
  <-> m_txt (Fin 1) (Fin 1) [Fin (1 / 2)] (Fin (PI / 2)) (Fin 0) (Fin 1)
        (Fin 3500) (Fin 1.21)
      = Ok (Fin (1000 / 1000 * (1 - (1 / 2) ^ 2))).
Proof.
  apply (boundary_is_line_of_equal_final_mass
           1000 0 1 3500 1.21 1 1 (PI / 2) (1 / 2) [Fin (1 / 2)]);
    try lra.
  - rewrite sin_PI2. lra.
  - reflexivity.
Defined.

(* ===================================================================== *)
(** * Further properties: the cell of Section 1.2                          *)
(* ===================================================================== *)

Lemma Q4_min_in_box {minimize : minimizer} (Y vvals yvals err : list fl)
    {ylast : fl} {out : list fl} :
  respects_bounds minimize ->
  getitem Y (-1) = Ok ylast ->
  isnan ylast = false ->
  Q4_min minimize (Some Y) vvals yvals err = Ok out ->
  exists a b,
    out = [Fin a; Fin b] /\ 0.01 <= a <= 1000 /\ 0.0001 <= b <= 20.
Proof.
  intros Hmin HY Hnan. rewrite (Q4_min_run minimize Y vvals yvals err HY).
  destruct (minimize _ _ _) as [res|e] eqn:Em; [|discriminate].
  cbn [bind]. intros [= <-].
  apply Hmin in Em.
  - pose proof (Forall2_length Em) as Hl.
    destruct (res_x res) as [|alpha [|beta [|c xs]]]; try discriminate Hl.
    apply Forall2_two in Em. destruct Em as [Ha Hb].
    apply within_finite in Ha. destruct Ha as (a & -> & Ha).
    apply within_finite in Hb. destruct Hb as (b & -> & Hb).
    exists a, b. repeat split; lra.
  - constructor; [|constructor; [reflexivity | constructor]].
    cbn [fmul]. apply start_alpha_not_nan; [lra | exact Hnan].
Qed.

(** X20.  When the minimiser keeps to its bounds, the three logarithms
    that the cell of Section 1.2 prints are these: [log alpha] and
    [log beta] are finite, between [ln 0.01] and [ln 1000] and between
    [ln 0.0001] and [ln 20]; [log(alpha sin(slope))] is finite only for
    [sin(slope) > 0], it is [-inf] at [sin(slope) = 0] and [nan] below. *)
Theorem section_1_2_logarithms {minimize : minimizer}
    (Vvalues Yvalues : list fl) (slope : R) {ylast : fl} {fit : fit_1} :
  respects_bounds minimize ->
  getitem Yvalues (-1) = Ok ylast ->
  isnan ylast = false ->
  section_1_2 minimize Vvalues Yvalues (Fin slope) = Ok fit ->
  exists a b,
    alpha_1 fit = Fin a /\ beta_1 fit = Fin b
    /\ log_alpha fit = Fin (ln a) /\ ln 0.01 <= ln a <= ln 1000
    /\ log_beta fit = Fin (ln b) /\ ln 0.0001 <= ln b <= ln 20
    /\ (0 < sin slope ->
        log_alpha_sin_slope fit = Fin (ln a + ln (sin slope)))
    /\ (sin slope = 0 -> log_alpha_sin_slope fit = NInf)
    /\ (sin slope < 0 -> log_alpha_sin_slope fit = NaN).
Proof.
  intros Hmin HY Hnan. unfold section_1_2.
  destruct (Q4_min minimize (Some Yvalues) Vvalues Yvalues [])
    as [out|e] eqn:Eq; [|discriminate].
  destruct (Q4_min_in_box Yvalues Vvalues Yvalues [] Hmin HY Hnan Eq)
    as (a & b & -> & Ha & Hb).
  cbn [bind]. rewrite getitem_0, getitem_1. cbn [bind].
  intros [= <-]. cbn [alpha_1 beta_1 log_alpha log_beta log_alpha_sin_slope].
  assert (Ha0 : 0 < a) by lra. assert (Hb0 : 0 < b) by lra.
  assert (Hle : forall u v, 0 < u -> u <= v -> ln u <= ln v).
  { intros u v Hu [Huv| ->]; [left; apply ln_increasing; assumption | right; reflexivity]. }
  exists a, b. split; [reflexivity|]. split; [reflexivity|].
  split; [cbn [flog]; rewrite (Rltb_true 0 a Ha0); reflexivity|].
  split; [split; apply Hle; lra|].
  split; [cbn [flog]; rewrite (Rltb_true 0 b Hb0); reflexivity|].
  split; [split; apply Hle; lra|].
  cbn [fsin fmul flog].
  split; [|split]; intros Hs.
  - assert (0 < a * sin slope) by (apply Rmult_lt_0_compat; assumption).
    rewrite Rltb_true by assumption. rewrite ln_mult by assumption.
    reflexivity.
  - rewrite Hs, Rmult_0_r. rewrite Rltb_false by lra.
    rewrite Reqb_true by reflexivity. reflexivity.
  - assert (a * sin slope < 0).
    { replace 0 with (a * 0) by ring.
      apply Rmult_lt_compat_l; assumption. }
    rewrite Rltb_false by lra. rewrite Reqb_false by lra. reflexivity.
Qed.

Lemma section_1_2_project_only_ground :
  section_1_2 project_only [Fin 1] [Fin 0] (Fin 0)
  = Ok {| alpha_1 := Fin (1 / 2); beta_1 := Fin 1;
          log_alpha := flog (Fin (1 / 2)); log_beta := flog (Fin 1);
          log_alpha_sin_slope := flog (fmul (Fin (1 / 2)) (fsin (Fin 0))) |}.
Proof.
  unfold section_1_2. rewrite Q4_min_project_only_ground. reflexivity.
Qed.

Lemma section_1_2_logarithms_witness :
  exists a b,
    Fin (1 / 2) = Fin a /\ Fin 1 = Fin b
    /\ flog (Fin (1 / 2)) = Fin (ln a) /\ ln 0.01 <= ln a <= ln 1000
    /\ flog (Fin 1) = Fin (ln b) /\ ln 0.0001 <= ln b <= ln 20
    /\ (0 < sin 0 ->
        flog (fmul (Fin (1 / 2)) (fsin (Fin 0))) = Fin (ln a + ln (sin 0)))
    /\ (sin 0 = 0 -> flog (fmul (Fin (1 / 2)) (fsin (Fin 0))) = NInf)
    /\ (sin 0 < 0 -> flog (fmul (Fin (1 / 2)) (fsin (Fin 0))) = NaN).
Proof.
  exact (section_1_2_logarithms (minimize := project_only)
           [Fin 1] [Fin 0] 0 (ylast := Fin 0)
           project_only_respects_bounds eq_refl eq_refl
           section_1_2_project_only_ground).
Defined.

(* ===================================================================== *)
(** * Further properties: the objective on the arrays of Section 1.1       *)
(* ===================================================================== *)

Lemma q4_terms_fin (a b : R) (vs ys : list R) :
  b <> 0 -> Forall (fun v => v <> 0) vs ->
  q4_terms (Fin a) (Fin b) (map Fin vs) (map Fin ys)
  = map Fin (map (fun vy => deviation a b (fst vy) (snd vy)
                            * deviation a b (fst vy) (snd vy))
                 (combine vs ys)).
Proof.
  intros Hb Hvs. unfold q4_terms. revert ys.
  induction Hvs as [|v vs Hv _ IH]; intros ys; [reflexivity|].
  destruct ys as [|y ys]; [reflexivity|].
  cbn [map combine fst snd]. rewrite (q4_term_finite a b v y Hb Hv).
  f_equal. apply IH.
Qed.

Lemma kept_finite_heights (data : list row) :
  Forall (fun r => isfinite (snd r) = true) data ->
  exists hs, map snd (filter kept data) = map Fin hs.
Proof.
  intros H. exists (map to_real (map snd (filter kept data))).
  apply finite_list. apply Forall_forall. intros h Hh.
  apply in_map_iff in Hh. destruct Hh as [r [<- Hr]].
  apply filter_In in Hr. rewrite Forall_forall in H. apply H, Hr.
Qed.

Lemma map_fdiv_fin (c : R) (rs : list R) :
  c <> 0 ->
  map (fun v => fdiv v (Fin c)) (map Fin rs) = map Fin (map (fun r => r / c) rs).
Proof.
  intros Hc. rewrite !map_map. apply map_ext. intros r.
  apply fdiv_fin. exact Hc.
Qed.

(** X21.  In exact arithmetic, on a table of finite velocities and
    heights and with the reference velocity computed by the cell of
    Section 1.1, the objective of the two-parameter fit is a finite
    number, not negative, at every finite [(alpha, beta)] with
    [beta <> 0]: no term of the sum is [nan] or infinite there.  (So on
    such data a term that is not finite can only come from the overflow
    or underflow of a binary64 operation, which exact arithmetic does not
    have: [expi] and [exp] are [+inf] from an argument of about 710 on.) *)
Theorem objective_is_finite_on_finite_data (data : list row)
    {g : normalised} {Y : list fl} (a b : R) :
  Forall (fun r => isfinite (fst r) = true) data ->
  Forall (fun r => isfinite (snd r) = true) data ->
  section_1_1 data None = (g, None) ->
  Yvalues g = Some Y ->
  b <> 0 ->
  Forall (fun t => isfinite t = true) (q4_terms (Fin a) (Fin b) (Vvalues g) Y)
  /\ exists r, min_fun [Fin a; Fin b] (Vvalues g) Y [] = Ok (Fin r) /\ 0 <= r.
Proof.
  intros Hv Hh. rewrite section_1_1_filter. cbv zeta.
  destruct (kept_finite_velocities data Hv) as (rs & Ers & Hrs).
  destruct (kept_finite_heights data Hh) as (hs & Ehs).
  rewrite Ers, Ehs.
  destruct (getitem (map Fin hs) 0) as [alt0|e] eqn:E0; [|discriminate].
  assert (Hne : rs <> []).
  { intros ->. assert (L : length (map fst (filter kept data)) = 0%nat)
      by (rewrite Ers; reflexivity).
    assert (L' : length (map snd (filter kept data)) = 0%nat)
      by (rewrite length_map in *; exact L).
    rewrite Ehs in L'. destruct hs; [discriminate E0 | discriminate L']. }
  assert (Hlen : length rs = length hs).
  { transitivity (length (filter kept data)).
    - rewrite <- (length_map Fin rs), <- Ers. apply length_map.
    - rewrite <- (length_map Fin hs), <- Ehs. symmetry. apply length_map. }
  destruct (approx_v0_finite rs Hrs Hne) as [-> Hv0].
  set (c := Rsum (firstn 10 rs) / INR (length (firstn 10 rs))) in *.
  set (hh := if flt alt0 (Fin 1000) then Fin 7.160 else Fin 7160).
  assert (Hhh : exists h, hh = Fin h /\ h <> 0).
  { unfold hh. destruct (flt alt0 (Fin 1000)); eexists; (split; [reflexivity | lra]). }
  destruct Hhh as (h & Eh & Hh0).
  intros Hg HY Hb. injection Hg as <-. cbn [Vvalues Yvalues] in *.
  injection HY as <-. fold hh. rewrite Eh.
  rewrite map_fdiv_fin by lra. rewrite (map_fdiv_fin h hs Hh0).
  assert (Hnz : Forall (fun v => v <> 0) (map (fun r => r / c) rs)).
  { rewrite Forall_map. apply Forall_impl with (2 := Hrs).
    intros r Hr. apply Rgt_not_eq. apply Rdiv_lt_0_compat; lra. }
  rewrite (q4_terms_fin a b _ (map (fun r => r / h) hs) Hb Hnz).
  split.
  - apply Forall_forall. intros t Ht. apply in_map_iff in Ht.
    destruct Ht as [x [<- _]]. reflexivity.
  - rewrite min_fun_sum by (rewrite !length_map; lia).
    rewrite (q4_terms_fin a b _ (map (fun r => r / h) hs) Hb Hnz).
    rewrite nansum_fin. eexists. split; [reflexivity|].
    apply Rsum_nonneg. rewrite Forall_map. apply Forall_forall.
    intros x _. apply Rle_0_sqr.
Qed.

Lemma objective_is_finite_on_finite_data_witness :
  Forall (fun t => isfinite t = true)
    (q4_terms (Fin 1) (Fin 1) [Fin (2 / 3); Fin (4 / 3)] [Fin 0; Fin 0])
  /\ exists r,
       min_fun [Fin 1; Fin 1] [Fin (2 / 3); Fin (4 / 3)] [Fin 0; Fin 0] []
       = Ok (Fin r) /\ 0 <= r.
Proof.
  assert (Hv : Forall (fun r : row => isfinite (fst r) = true)
                 [(Fin 2, Fin 0); (Fin 4, Fin 0)])
    by (repeat constructor).
  assert (Hh : Forall (fun r : row => isfinite (snd r) = true)
                 [(Fin 2, Fin 0); (Fin 4, Fin 0)])
    by (repeat constructor).
  assert (Hb : 1 <> 0) by lra.
  exact (objective_is_finite_on_finite_data
           [(Fin 2, Fin 0); (Fin 4, Fin 0)] 1 1 Hv Hh
           section_1_1_two_speeds eq_refl Hb).
Defined.

Lemma boundary_returns (mu mf : fl) (m : R) (x : list fl) :
  m <> 0 ->
  exists ys, boundary mu mf (Fin m) x = inr ys /\ length ys = length x.
Proof.
  intros Hm. induction x as [|i x [ys [E L]]]; cbn [boundary].
  - exists []. split; reflexivity.
  - unfold pydiv. rewrite (Reqb_false _ _ Hm). rewrite E.
    eexists. split; [reflexivity|]. cbn [length]. rewrite L. reflexivity.
Qed.

(** [rho^(2/3)] is between 1 and [rho], for [rho >= 1]. *)
Lemma Rpower_two_thirds_bounds (rho : R) :
  1 <= rho -> 1 <= Rpower rho (2 / 3) <= rho.
Proof.
  intros H. unfold Rpower.
  assert (Hln : 0 <= ln rho).
  { rewrite <- ln_1. destruct H as [H|<-]; [|lra].
    left. apply ln_increasing; lra. }
  split.
  - rewrite <- exp_0 at 1.
    destruct (Req_dec (2 / 3 * ln rho) 0) as [->|Hne]; [lra|].
    left. apply exp_increasing. lra.
  - rewrite <- (exp_ln rho) at 2 by lra.
    destruct (Req_dec (ln rho) 0) as [E|Hne].
    + rewrite E. replace (2 / 3 * 0) with 0 by lra. lra.
    + left. apply exp_increasing. lra.
Qed.

(** [m0] at the positions that the sliders of the mass cell offer. *)
Lemma m0_value_on_sliders (cd rho A : R) :
  0.9 <= cd <= 1.5 -> 1500 <= rho <= 7000 -> 1.21 <= A <= 3 ->
  0.3 <= m0_value cd rho A <= 10 ^ 13.
Proof.
  intros Hcd Hrho HA. unfold m0_value.
  destruct (Rpower_two_thirds_bounds rho ltac:(lra)) as [P1 P2].
  set (P := Rpower rho (2 / 3)) in *.
  set (K := 0.5 * cd * 1.29 * 7160 * A).
  assert (HK : 5000 <= K <= 21000).
  { unfold K. split; nra. }
  assert (Hq : 0.7 <= K / P <= 21000).
  { split.
    - apply (Rmult_le_reg_r P); [lra|].
      unfold Rdiv. rewrite Rmult_assoc, Rinv_l by lra. nra.
    - apply (Rmult_le_reg_r P); [lra|].
      unfold Rdiv. rewrite Rmult_assoc, Rinv_l by lra. nra. }
  split.
  - apply Rle_trans with (0.7 ^ 3); [lra|]. apply pow_incr. lra.
  - apply Rle_trans with (21000 ^ 3); [|lra]. apply pow_incr. lra.
Qed.

(** X22.  At every position of the sliders [cd] (0.9 to 1.5), [rho]
    (1500 to 7000) and [A] (1.21 to 3), [m0] is a number between 0.3 and
    [10^13], and the float division [mf/m0] of the mass cell, which alone
    in the cell can raise [ZeroDivisionError], does not raise: the cell
    computes one ordinate for every abscissa, whatever [mf] and [mu] are.
    With a drag coefficient of zero, which the slider does not offer, it
    raises.  (The bounds on [m0] are those of exact arithmetic; they
    leave binary64 nearly three hundred orders of magnitude on either
    side before the cube would underflow to zero or overflow.) *)
Theorem mass_cell_divides_safely (mf mu : fl) (cd rho A : R) (x : list fl) :
  0.9 <= cd <= 1.5 -> 1500 <= rho <= 7000 -> 1.21 <= A <= 3 ->
  (exists m,
     m0 (Fin cd) (Fin rho) (Fin A) = inr (Fin m) /\ 0.3 <= m <= 10 ^ 13)
  /\ (exists ys,
        f_boundary mf mu (Fin cd) (Fin rho) (Fin A) x = inr ys
        /\ length ys = length x)
  /\ (x <> [] ->
      f_boundary mf mu (Fin 0) (Fin rho) (Fin A) x = inl ZeroDivisionError).
Proof.
  intros Hcd Hrho HA.
  assert (Hrho0 : 0 < rho) by lra.
  pose proof (m0_value_on_sliders cd rho A Hcd Hrho HA) as Hm.
  split; [|split].
  - exists (m0_value cd rho A). split; [apply m0_finite; exact Hrho0 | exact Hm].
  - unfold f_boundary. rewrite (m0_finite cd rho A Hrho0).
    apply boundary_returns. lra.
  - intros Hx. unfold f_boundary. rewrite (m0_finite 0 rho A Hrho0).
    assert (E : m0_value 0 rho A = 0).
    { unfold m0_value. field. apply Rgt_not_eq. apply exp_pos. }
    rewrite E. destruct x as [|i x]; [congruence|].
    cbn [boundary]. unfold pydiv. rewrite Reqb_true by reflexivity.
    reflexivity.
Qed.

Lemma mass_cell_divides_safely_witness :
  (exists m,
     m0 (Fin 1) (Fin 3500) (Fin 1.21) = inr (Fin m) /\ 0.3 <= m <= 10 ^ 13)
  /\ (exists ys,
        f_boundary (Fin 500) (Fin (1 / 3)) (Fin 1) (Fin 3500) (Fin 1.21)
          [Fin 0; NaN] = inr ys
        /\ length ys = length [Fin 0; NaN])
  /\ ([Fin 0; NaN] <> [] ->
      f_boundary (Fin 500) (Fin (1 / 3)) (Fin 0) (Fin 3500) (Fin 1.21)
        [Fin 0; NaN] = inl ZeroDivisionError).
Proof.
  apply (mass_cell_divides_safely (Fin 500) (Fin (1 / 3)) 1 3500 1.21
           [Fin 0; NaN]); lra.
Defined.
